(** * gfapi: the request pipeline of the Gameflip API client (src/index.js)

    A shallow embedding of [Util], of the [GfApi] constructor and of the
    helper methods [_get], [_getList], [_post], [_put], [_patch],
    [steam_inventory_get], [_authorizationHeader], [_entry], [_result] and
    [_steamResult], followed by the properties of the specification.

    JavaScript values are the values of parsed JSON plus [undefined].
    Numbers are integers: the code only passes numbers through, tests them
    for truthiness and interpolates them into strings. *)

From Stdlib Require Import Ascii.
From stdpp Require Import gmap strings list fin_maps pretty.

Open Scope Z_scope.
Open Scope string_scope.

(** ** JavaScript values *)

Set Warnings "-register-all".

Inductive value :=
| VUndef
| VNull
| VBool (b : bool)
| VNum (n : Z)
| VStr (s : string)
| VArr (items : list value)
| VObj (fields : list (string * value)).

(** Own-property lookup in the field list of an object literal: the first
    binding of a key is the one the object holds. *)
Fixpoint assoc (k : string) (fields : list (string * value)) : option value :=
  match fields with
  | [] => None
  | (k', v) :: rest => if String.eqb k k' then Some v else assoc k rest
  end.

(** [v.k] for a value [v] that is neither [undefined] nor [null] (the code
    only reads properties of values it has made truthy with [|| {}]).  The
    keys the code reads (status, data, next_page, error, code, message,
    success, more_items, assets, last_assetid) are not members of any
    built-in prototype, so a missing own property reads as [undefined]. *)
Definition get (v : value) (k : string) : value :=
  match v with
  | VObj fields => default VUndef (assoc k fields)
  | _ => VUndef
  end.

(** ToBoolean. *)
Definition truthy (v : value) : bool :=
  match v with
  | VUndef | VNull => false
  | VBool b => b
  | VNum n => negb (Z.eqb n 0)
  | VStr s => negb (String.eqb s "")
  | VArr _ | VObj _ => true
  end.

(** [a || b]. *)
Definition js_or (a b : value) : value := if truthy a then a else b.

(** ToString, as used by template literals and by [==] on objects.  An
    array joins its elements with commas, [null] and [undefined] elements
    printing as the empty string. *)
Fixpoint to_js_string (v : value) : string :=
  match v with
  | VUndef => "undefined"
  | VNull => "null"
  | VBool true => "true"
  | VBool false => "false"
  | VNum n => pretty n
  | VStr s => s
  | VArr items =>
      (fix join (l : list value) : string :=
         match l with
         | [] => ""
         | x :: rest =>
             let sx := match x with
                       | VUndef | VNull => ""
                       | _ => to_js_string x
                       end in
             match rest with
             | [] => sx
             | _ :: _ => sx +:+ "," +:+ join rest
             end
         end) items
  | VObj _ => "[object Object]"
  end.

(** [v == 'SUCCESS'].  Loose equality against this literal: a string is
    compared as is, an object or array through its primitive (string)
    form; a number or boolean would be compared with ToNumber('SUCCESS'),
    which is NaN; [null] and [undefined] equal only each other. *)
Definition loose_eq_SUCCESS (v : value) : bool :=
  match v with
  | VStr s => String.eqb s "SUCCESS"
  | VArr _ | VObj _ => String.eqb (to_js_string v) "SUCCESS"
  | VUndef | VNull | VBool _ | VNum _ => false
  end.

(** [v === null]. *)
Definition strict_eq_null (v : value) : bool :=
  match v with VNull => true | _ => false end.

(** ** Util *)

Module Util.

(** [typeof x === 'undefined' || (Array.isArray(x) && x.length == 0)] *)
Definition emptyArray (x : value) : bool :=
  match x with
  | VUndef => true
  | VArr [] => true
  | _ => false
  end.

(** [typeof x === 'undefined' || x === null] *)
Definition isNull (x : value) : bool :=
  match x with
  | VUndef | VNull => true
  | _ => false
  end.

(** The first argument that is neither [undefined] nor [null], else
    [null]. *)
Fixpoint options (args : list value) : value :=
  match args with
  | [] => VNull
  | x :: rest => if isNull x then options rest else x
  end.

End Util.

(** ** CONST *)

Module CONST.

Definition BASE_URL_production : string :=
  "https://production-gameflip.fingershock.com/api/v1".
Definition BASE_URL_test : string :=
  "https://test-gameflip.fingershock.com/api/v1".
Definition BASE_URL_development : string :=
  "http://localhost:3000/api/v1".

(** [CONST.BASE_URL[env]]: the three own keys of the table; any other
    key reads as [undefined]. *)
Definition BASE_URL (env : string) : value :=
  if String.eqb env "production" then VStr BASE_URL_production
  else if String.eqb env "test" then VStr BASE_URL_test
  else if String.eqb env "development" then VStr BASE_URL_development
  else VUndef.

(** [CONST.STEAM.CONTEXT_ID[appId] || CONST.STEAM.CONTEXT_ID.DEFAULT],
    over the own keys of the table. *)
Definition STEAM_CONTEXT_ID (appId : string) : string :=
  if String.eqb appId "433850" then "1"
  else if String.eqb appId "295110" then "1"
  else "2".

End CONST.

(** ** Strings *)

(** [s.split(sep)] for a one-character separator: the pieces between the
    occurrences of [sep], one more than there are occurrences. *)
Fixpoint split (sep : ascii) (s : string) : list string :=
  match s with
  | EmptyString => [""]
  | String a s' =>
      if Ascii.eqb a sep then "" :: split sep s'
      else match split sep s' with
           | [] => [String a ""]
           | w :: ws => String a w :: ws
           end
  end.

(** Whether [c] occurs in [s]. *)
Fixpoint occurs (c : ascii) (s : string) : bool :=
  match s with
  | EmptyString => false
  | String a s' => Ascii.eqb a c || occurs c s'
  end.

(** ** Requests, responses and errors *)

Inductive method := GET | POST | PUT | PATCH.

(** What a method hands to [this.client.getPromise] and its siblings: the
    URL, the headers of [args] and [args.data] when it is set. *)
Record request := {
  req_method : method;
  req_url : value;
  req_headers : list (string * string);
  req_data : option value
}.

(** [result.response]: the raw HTTP response. *)
Record response := {
  statusCode : value;
  statusMessage : value
}.

(** What the transport promise resolves to. *)
Record raw_result := {
  data : value;
  response_of : response
}.

(** Exceptions.  [HttpErrors statusCode statusMessage] is the error object
    made by the call [HttpErrors(statusCode, statusMessage)] of the
    http-errors package, kept as the call with its two arguments. *)
Inductive exn :=
| HttpErrors (code message : value)
| TotpError (reason : string)
| TransportError (reason : string).

(** A settled promise. *)
Inductive settled (A : Type) :=
| Resolved (a : A)
| Rejected (e : exn).
Arguments Resolved {A} a.
Arguments Rejected {A} e.

(** A line handed to [this.log]. *)
Inductive log_line :=
| debug (text : string)
| trace (text : string).

(** ** The client instance

    The fields of [this], with the state of the collaborators it holds:
    [rateLimit] is the interval, in milliseconds, the limiter was made
    with; [waiting] is the queue of [this.rateLimit()] calls (time of the
    call and the debug text its continuation will log), [sent] the
    requests handed to [this.client] (with the time they were handed
    over), [log] the lines handed to [this.log]; [clock] is [Date.now()].
    The code that runs between two awaits takes no time on this clock. *)
Record GfApi := {
  apiKey : string;
  secret : gmap string value;
  baseUrl : value;
  rateLimit : Z;
  clock : Z;
  waiting : list (Z * string);
  sent : list (Z * request);
  log : list log_line
}.

Definition with_waiting (w : list (Z * string)) (c : GfApi) : GfApi :=
  {| apiKey := apiKey c; secret := secret c; baseUrl := baseUrl c;
     rateLimit := rateLimit c; clock := clock c;
     waiting := w; sent := sent c; log := log c |}.

Definition with_sent (s : list (Z * request)) (c : GfApi) : GfApi :=
  {| apiKey := apiKey c; secret := secret c; baseUrl := baseUrl c;
     rateLimit := rateLimit c; clock := clock c;
     waiting := waiting c; sent := s; log := log c |}.

Definition with_log (l : list log_line) (c : GfApi) : GfApi :=
  {| apiKey := apiKey c; secret := secret c; baseUrl := baseUrl c;
     rateLimit := rateLimit c; clock := clock c;
     waiting := waiting c; sent := sent c; log := l |}.

(** The event loop lets [dt] milliseconds pass. *)
Definition elapse (dt : Z) (c : GfApi) : GfApi :=
  {| apiKey := apiKey c; secret := secret c; baseUrl := baseUrl c;
     rateLimit := rateLimit c; clock := clock c + dt;
     waiting := waiting c; sent := sent c; log := log c |}.

(** The defaults of the TOTP configuration. *)
Definition secret_defaults : gmap string value :=
  {[ "encoding" := VStr "base32";
     "algorithm" := VStr "sha1";
     "digits" := VNum 6;
     "period" := VNum 30 ]}.

(** [new GfApi(apiKey, secret)] at time [now].  [Object.assign(defaults,
    secret)] keeps every field of [secret] and the defaults of the fields
    [secret] does not have. *)
Definition constructor (key : string) (secret : gmap string value) (now : Z)
  : GfApi :=
  let parts := split "-"%char key in
  {| apiKey := key;
     secret := secret ∪ secret_defaults;
     baseUrl := if Nat.eqb (length parts) 1
                then VStr CONST.BASE_URL_production
                else CONST.BASE_URL (hd "" parts);
     rateLimit := 1000;
     clock := now;
     waiting := [];
     sent := [];
     log := [] |}.

(** What a method call hands back when it returns: [null] itself, or the
    promise of [_result] or [_steamResult] over the transport promise,
    with or without the caller's query object. *)
Inductive pending :=
| Result_of (resultPromise : settled raw_result) (with_query : bool)
| SteamResult_of (resultPromise : settled raw_result) (with_query : bool).

Inductive completion :=
| Throws (e : exn)
| ReturnsNull
| ReturnsPromise (p : pending).

(** ** The methods

    The packages the methods call are an interface: [Speakeasy.totp]
    (which returns a passcode or throws), [QueryString.stringify],
    [JSON.stringify(_, null, 2)] and the REST client behind
    [this.client]. *)
Class Packages := {
  Speakeasy_totp : gmap string value → Z → exn + string;
  QueryString_stringify : option (gmap string value) → string;
  JSON_stringify : value → string;
  transport : request → settled raw_result
}.

Section Methods.

Context {P : Packages}.

(** [Util.queryString]: the query string, prefixed by '?' if it has
    values. *)
Definition queryString (obj : option (gmap string value)) : string :=
  let qs := QueryString_stringify obj in
  if truthy (VStr qs) then "?" +:+ qs else "".

Definition _authorizationHeader (c : GfApi) : exn + string :=
  match Speakeasy_totp (secret c) (clock c) with
  | inl e => inl e
  | inr code => inr ("GFAPI " +:+ apiKey c +:+ ":" +:+ code)
  end.

(** [_entry] runs up to its [await]: the call of [this.rateLimit()] is
    queued, and the debug line is left to the continuation.  No caller
    awaits the promise [_entry] returns. *)
Definition _entry (text : string) (c : GfApi) : GfApi :=
  with_waiting (waiting c ++ [(clock c, text)]) c.

(** The rest of [_entry], run when the limiter resolves the [i]-th of the
    calls waiting on it: [this.log.debug(text)]. *)
Definition entry_resumes (i : nat) (c : GfApi) : GfApi :=
  match waiting c !! i with
  | Some (_, text) =>
      with_log (log c ++ [debug text])
               (with_waiting (take i (waiting c) ++ drop (S i) (waiting c)) c)
  | None => c
  end.

(** [this.client.getPromise(url, args)] and its siblings. *)
Definition send (r : request) (c : GfApi) : settled raw_result * GfApi :=
  (transport r, with_sent (sent c ++ [(clock c, r)]) c).

Definition log_trace (text : string) (c : GfApi) : GfApi :=
  with_log (log c ++ [trace text]) c.

(** [result.data || {}] *)
Definition apiData_of (result : raw_result) : value :=
  js_or (data result) (VObj []).

(** [_result], from the settled transport promise on.  [query] is [None]
    for the default [null]. *)
Definition _result (resultPromise : settled raw_result)
    (query : option (gmap string value)) (c : GfApi)
  : settled value * option (gmap string value) * GfApi :=
  match resultPromise with
  | Rejected e => (Rejected e, query, c)
  | Resolved result =>
      let apiData := apiData_of result in
      if loose_eq_SUCCESS (get apiData "status") then
        let c := log_trace ("SUCCESS: " +:+ JSON_stringify apiData) c in
        if Util.isNull (get apiData "next_page")
           && Util.emptyArray (get apiData "data")
        then (Resolved VNull, query, c)
        else
          let query :=
            match query with
            | Some q =>
                Some (<["nextPage" := Util.options [get apiData "next_page"]]> q)
            | None => None
            end in
          (Resolved (get apiData "data"), query, c)
      else
        let error := js_or (get apiData "error") (VObj []) in
        let response := response_of result in
        let statusCode :=
          Util.options [get error "code"; statusCode response] in
        let statusMessage :=
          Util.options [get error "message"; statusMessage response] in
        let c := log_trace ("FAIL: statusCode=" +:+ to_js_string statusCode
                            +:+ " statusMessage=" +:+ to_js_string statusMessage) c in
        (Rejected (HttpErrors statusCode statusMessage), query, c)
  end.

Definition _steamResult (resultPromise : settled raw_result)
    (query : option (gmap string value)) (c : GfApi)
  : settled value * option (gmap string value) * GfApi :=
  match resultPromise with
  | Rejected e => (Rejected e, query, c)
  | Resolved result =>
      let apiData := apiData_of result in
      if truthy (get apiData "success") then
        let c := log_trace ("SUCCESS: " +:+ JSON_stringify apiData) c in
        if Util.isNull (get apiData "more_items")
           && Util.emptyArray (get apiData "assets")
        then (Resolved VNull, query, c)
        else
          let query :=
            match query with
            | Some q =>
                Some (<["start_assetid" := Util.options [get apiData "last_assetid"]]> q)
            | None => None
            end in
          (Resolved apiData, query, c)
      else
        let response := response_of result in
        let c := log_trace ("FAIL: statusCode=" +:+ to_js_string (statusCode response)
                            +:+ " statusMessage=" +:+ to_js_string (statusMessage response)) c in
        (Rejected (HttpErrors (statusCode response) (statusMessage response)), query, c)
  end.

(** [query.k], [undefined] when the object has no such property. *)
Definition prop (query : gmap string value) (k : string) : value :=
  default VUndef (query !! k).

(** The body shared by the methods that sign a request: the header is
    computed while the arguments of the client call are built, so an
    exception of [_authorizationHeader] leaves before anything is sent. *)
Definition signed (m : method) (url : value) (content_type : option string)
    (body : option value) (with_query : bool) (c : GfApi)
  : completion * GfApi :=
  match _authorizationHeader c with
  | inl e => (Throws e, c)
  | inr h =>
      let headers :=
        match content_type with
        | None => [("Authorization", h)]
        | Some t => [("Authorization", h); ("Content-Type", t)]
        end in
      let '(p, c) := send {| req_method := m; req_url := url;
                             req_headers := headers; req_data := body |} c in
      (ReturnsPromise (Result_of p with_query), c)
  end.

Definition _get (uri : string) (query : option (gmap string value))
    (c : GfApi) : completion * GfApi :=
  let url := to_js_string (baseUrl c) +:+ "/" +:+ uri +:+ queryString query in
  let c := _entry ("GET '" +:+ url +:+ "'") c in
  signed GET (VStr url) None None false c.

(** [query.nextPage || `${this.baseUrl}/${uri}${Util.queryString(query)}`] *)
Definition list_url (uri : string) (query : gmap string value) (c : GfApi)
  : value :=
  js_or (prop query "nextPage")
        (VStr (to_js_string (baseUrl c) +:+ "/" +:+ uri
               +:+ queryString (Some query))).

Definition _getList (uri : string) (query : gmap string value)
    (c : GfApi) : completion * GfApi :=
  if strict_eq_null (prop query "nextPage") then (ReturnsNull, c)
  else
    let url := list_url uri query c in
    let c := _entry ("GET " +:+ to_js_string url) c in
    signed GET url None None true c.

(** [if (data) args.data = data]. *)
Definition body_if_truthy (data : value) : option value :=
  if truthy data then Some data else None.

Definition _post (uri : string) (data : value) (c : GfApi)
  : completion * GfApi :=
  let url := to_js_string (baseUrl c) +:+ "/" +:+ uri in
  let c := _entry ("POST " +:+ url +:+ " data=" +:+ JSON_stringify data) c in
  signed POST (VStr url) (Some "application/json") (body_if_truthy data) false c.

Definition _put (uri : string) (data : value) (c : GfApi)
  : completion * GfApi :=
  let url := to_js_string (baseUrl c) +:+ "/" +:+ uri in
  let c := _entry ("PUT " +:+ url +:+ " data=" +:+ JSON_stringify data) c in
  signed PUT (VStr url) (Some "application/json") (body_if_truthy data) false c.

Definition _patch (uri : string) (data : value) (c : GfApi)
  : completion * GfApi :=
  let c := _entry ("PATCH " +:+ uri +:+ " data=" +:+ JSON_stringify data) c in
  signed PATCH (VStr (to_js_string (baseUrl c) +:+ "/" +:+ uri))
         (Some "application/json-patch+json") (Some data) false c.

Definition steam_inventory_get (profileid appId : string)
    (query : gmap string value) (c : GfApi) : completion * GfApi :=
  if strict_eq_null (prop query "start_assetid") then (ReturnsNull, c)
  else
    let contextId := CONST.STEAM_CONTEXT_ID appId in
    let url := "http://steamcommunity.com/inventory/" +:+ profileid +:+ "/"
               +:+ appId +:+ "/" +:+ contextId +:+ queryString (Some query) in
    let c := _entry ("GET '" +:+ url +:+ "'") c in
    let '(p, c) := send {| req_method := GET; req_url := VStr url;
                           req_headers := []; req_data := None |} c in
    (ReturnsPromise (SteamResult_of p true), c).

Definition profile_get := _get "account/me/profile" None.

(** The endpoint methods over [_getList], called with a query object. *)
Definition listing_search := _getList "listing".
Definition escrow_mine_get := _getList "steam/escrow/mine".
Definition bulk_mine_get := _getList "steam/bulk/mine".

(** ** Awaiting a call

    [await api.method(...)]: a thrown exception and a rejected promise
    both reach the caller as an exception; the continuation of the
    promise runs [_result] or [_steamResult] on the caller's query
    object. *)
Definition await (r : completion * GfApi) (query : gmap string value)
  : settled value * gmap string value * GfApi :=
  match r with
  | (Throws e, c) => (Rejected e, query, c)
  | (ReturnsNull, c) => (Resolved VNull, query, c)
  | (ReturnsPromise (Result_of p b), c) =>
      let '(o, q, c) := _result p (if b then Some query else None) c in
      (o, default query q, c)
  | (ReturnsPromise (SteamResult_of p b), c) =>
      let '(o, q, c) := _steamResult p (if b then Some query else None) c in
      (o, default query q, c)
  end.

(** Awaited list calls in a row on one shared query object, the event
    loop letting [d] milliseconds pass before each: the results in order,
    the query and the client after the last one. *)
Fixpoint calls (delays : list Z) (uri : string) (query : gmap string value)
    (c : GfApi) : list (settled value) * gmap string value * GfApi :=
  match delays with
  | [] => ([], query, c)
  | d :: delays =>
      let '(o, query, c) := await (_getList uri query (elapse d c)) query in
      let '(os, query, c) := calls delays uri query c in
      (o :: os, query, c)
  end.

End Methods.

(** * The vocabulary of the properties *)

(** A value is present when it is neither [undefined] nor [null]. *)
Definition present (v : value) : Prop := v ≠ VUndef ∧ v ≠ VNull.


(** "No more data" for the primary API, in the words of the
    specification: [next_page] is null or absent and [data] is empty or
    absent. *)
Definition no_more_data (apiData : value) : Prop :=
  (get apiData "next_page" = VNull ∨ get apiData "next_page" = VUndef) ∧
  (get apiData "data" = VArr [] ∨ get apiData "data" = VUndef).

(** The same for the inventory API: [more_items] and [assets]. *)
Definition no_more_items (apiData : value) : Prop :=
  (get apiData "more_items" = VNull ∨ get apiData "more_items" = VUndef) ∧
  (get apiData "assets" = VArr [] ∨ get apiData "assets" = VUndef).

(** The cursor hand-off: [query.k = v] when a query object was supplied. *)
Definition hand_off (k : string) (v : value)
    (query : option (gmap string value)) : option (gmap string value) :=
  match query with
  | Some q => Some (<[k := v]> q)
  | None => None
  end.

(** Whether the object literal has an own property [k]. *)
Definition has_key (k : string) (fields : list (string * value)) : bool :=
  match assoc k fields with
  | Some _ => true
  | None => false
  end.

(** Whether ToString of [v] returns, and returns what [to_js_string]
    gives.  On an object with an own property [toString] (which in parsed
    JSON is never a function) the conversion throws a TypeError, in a
    template literal as in [==]; an array converts its elements; a
    number of 21 digits or more prints in exponent form. *)
Fixpoint prints (v : value) : bool :=
  match v with
  | VNum n => Z.ltb (Z.abs n) (10 ^ 21)
  | VArr items =>
      (fix all (l : list value) : bool :=
         match l with
         | [] => true
         | x :: rest => prints x && all rest
         end) items
  | VObj fields => negb (has_key "toString" fields)
  | _ => true
  end.





(** [v], or [null] if [v] is absent. *)
Definition or_null (v : value) : value :=
  match v with
  | VUndef => VNull
  | _ => v
  end.

(** ** A simulated list endpoint

    A page is its payload and the [next_page] it announces. *)
Definition page_response (payload : list value) (next : value) : raw_result :=
  {| data := VObj [("status", VStr "SUCCESS"); ("data", VArr payload);
                   ("next_page", next)];
     response_of := {| statusCode := VNum 200; statusMessage := VStr "OK" |} |}.




(** * Stand-ins for the packages, for the worked examples *)

(** A passcode generator in the manner of Speakeasy: it throws when the
    configuration has no secret, and otherwise returns six digits that
    depend on the 30-second bucket, whatever the characters of the
    secret. *)
Definition stub_totp (cfg : gmap string value) (now : Z) : exn + string :=
  match cfg !! "secret" with
  | Some (VStr s) => inr (pretty (100000 + (now / 30000) `mod` 900000))
  | _ => inl (TotpError "Speakeasy - totp - Missing secret")
  end.

(** A printer that stands for [JSON.stringify]. *)
Definition stub_stringify (v : value) : string := to_js_string v.

(** A [QueryString.stringify] for queries with at most a [limit] field. *)
Definition stub_querystring (obj : option (gmap string value)) : string :=
  match obj with
  | Some q =>
      match q !! "limit" with
      | Some v => "limit=" +:+ to_js_string v
      | None => ""
      end
  | None => ""
  end.

Definition http_ok : response :=
  {| statusCode := VNum 200; statusMessage := VStr "OK" |}.

Definition stub_client : GfApi :=
  constructor "test-0123456789abcde" {[ "secret" := VStr "JBSWY3DPEHPK3PXP" ]} 0.

Definition stub_packages : Packages :=
  {| Speakeasy_totp := stub_totp;
     QueryString_stringify := stub_querystring;
     JSON_stringify := stub_stringify;
     transport := λ _, Rejected (TransportError "ECONNREFUSED") |}.

(** A client made without a secret. *)
Definition misconfigured_client : GfApi :=
  constructor "test-0123456789abcde" ∅ 0.






(** * The remaining methods *)

Section More_methods.

Context {P : Packages}.

(** The endpoint methods over [_get], [_post] and [_put].  [bulk_post]
    passes no data, so [_post] sees its default [null]. *)
Definition listing_get (id : string) := _get ("listing/" +:+ id) None.
Definition escrow_get (id : string) := _get ("steam/escrow/" +:+ id) None.
Definition check_trade_ban := _get "steam/escrow/hold" None.
Definition bulk_get (id : string) := _get ("steam/bulk/" +:+ id) None.
Definition bulk_post := _post "steam/bulk" VNull.
Definition bulk_put (id : string) (data : value) :=
  _put ("steam/bulk/" +:+ id) data.

(** The URL [steam_inventory_get] asks for. *)
Definition steam_url (profileid appId : string) (query : gmap string value)
  : string :=
  "http://steamcommunity.com/inventory/" +:+ profileid +:+ "/" +:+ appId
  +:+ "/" +:+ CONST.STEAM_CONTEXT_ID appId +:+ queryString (Some query).

(** Awaited inventory calls in a row on one shared query object. *)
Fixpoint steam_calls (delays : list Z) (profileid appId : string)
    (query : gmap string value) (c : GfApi)
  : list (settled value) * gmap string value * GfApi :=
  match delays with
  | [] => ([], query, c)
  | d :: delays =>
      let '(o, query, c) :=
        await (steam_inventory_get profileid appId query (elapse d c)) query in
      let '(os, query, c) := steam_calls delays profileid appId query c in
      (o :: os, query, c)
  end.

End More_methods.

(** The members every object inherits from [Object.prototype].  The
    tables of CONST are modelled by their own keys, so a property that
    looks a key up in one of them is stated for keys outside this list. *)
Definition inherited_member (k : string) : bool :=
  bool_decide (k ∈ ["constructor"; "hasOwnProperty"; "isPrototypeOf";
                    "propertyIsEnumerable"; "toLocaleString"; "toString";
                    "valueOf"; "__proto__"; "__defineGetter__";
                    "__defineSetter__"; "__lookupGetter__";
                    "__lookupSetter__"]).

(** The URLs of the requests sent so far, oldest first. *)
Definition sent_urls (c : GfApi) : list value :=
  map (λ x, req_url x.2) (sent c).

(** A value is absent when it is [undefined] or [null]. *)
Definition absent (v : value) : Prop := v = VUndef ∨ v = VNull.

(** The request a signing method builds once it has the header [h]. *)
Definition signed_request (m : method) (url : value)
    (content_type : option string) (body : option value) (h : string)
  : request :=
  {| req_method := m; req_url := url;
     req_headers := match content_type with
                    | None => [("Authorization", h)]
                    | Some t => [("Authorization", h); ("Content-Type", t)]
                    end;
     req_data := body |}.

(** The synchronous part of a call only appends to the limiter queue and
    to the sent requests. *)
Definition grows_by (c c' : GfApi) (queued : list (Z * string))
    (requests : list (Z * request)) : Prop :=
  waiting c' = (waiting c ++ queued)%list ∧
  sent c' = (sent c ++ requests)%list ∧
  log c' = log c ∧ clock c' = clock c ∧ rateLimit c' = rateLimit c ∧
  apiKey c' = apiKey c ∧ secret c' = secret c ∧ baseUrl c' = baseUrl c.

(** At most one call of the limiter is queued, and a request goes out only
    behind a queued call. *)
Definition appends_at_most_one (c c' : GfApi) : Prop :=
  ∃ queued requests,
    grows_by c c' queued requests ∧
    (length requests ≤ length queued)%nat ∧ (length queued ≤ 1)%nat.


(** ** A simulated inventory

    The page [d] of an inventory, as the transport resolves it. *)
Definition inventory_response (d : value) : raw_result :=
  {| data := d;
     response_of := {| statusCode := VNum 200; statusMessage := VStr "OK" |} |}.

Section Inventory.

Context {P : Packages}.

(** The transport serves the pages in a chain: the first at the URL of the
    caller's query, each following one at the URL of the query with
    [start_assetid] set to the [last_assetid] of the page before it (or to
    null if that page has none). *)
Fixpoint inventory_serves (profileid appId : string)
    (query : gmap string value) (pages : list value) : Prop :=
  match pages with
  | [] => True
  | d :: rest =>
      (∀ r, req_method r = GET →
            req_url r = VStr (steam_url profileid appId query) →
            transport r = Resolved (inventory_response d)) ∧
      inventory_serves profileid appId
        (<["start_assetid" := or_null (get d "last_assetid")]> query) rest
  end.

(** The URLs at which the pages of the chain are served. *)
Fixpoint inventory_urls (profileid appId : string)
    (query : gmap string value) (pages : list value) : list value :=
  match pages with
  | [] => []
  | d :: rest =>
      VStr (steam_url profileid appId query)
      :: inventory_urls profileid appId
           (<["start_assetid" := or_null (get d "last_assetid")]> query) rest
  end.

End Inventory.

(** Every page is a success that indicates data, every page but the last
    names a [last_assetid], and the last one names none. *)
Fixpoint inventory_linked (pages : list value) : Prop :=
  match pages with
  | [] => False
  | d :: rest =>
      truthy (get d "success") = true ∧ ¬ no_more_items d ∧
      match rest with
      | [] => absent (get d "last_assetid")
      | _ :: _ => present (get d "last_assetid") ∧ inventory_linked rest
      end
  end.

(** ** The rest of CONST *)

Module ESCROW_STATUS.
Definition START : string := "start".
Definition RECEIVE_PENDING : string := "receive_pending".
Definition RECEIVED : string := "received".
Definition LISTED : string := "listed".
Definition STEAM_ESCROW : string := "steam_escrow".
Definition TRADE_HOLD : string := "trade_hold".
Definition DELIVER_PENDING : string := "deliver_pending".
Definition DELIVERED : string := "delivered".
Definition RETURN_PENDING : string := "return_pending".
Definition RETURNED : string := "returned".
End ESCROW_STATUS.

(** [CONST.LOG_NAME_FROM_LEVEL]: the reduce over the keys of
    [Bunyan.nameFromLevel] that stores the upper-cased name under each
    key, starting from the empty object.  [Bunyan.nameFromLevel] and
    [String.prototype.toUpperCase] are parameters; a key of the table
    always has a name, so the default of the lookup is never used. *)
Definition LOG_NAME_FROM_LEVEL (toUpperCase : string → string)
    (nameFromLevel : gmap string string) : gmap string string :=
  foldl (λ map key,
           <[key := toUpperCase (default "" (nameFromLevel !! key))]> map)
        ∅ (map_to_list nameFromLevel).*1.

(** ** A primitive string as the query

    [bulk_mine_get(query = CONST.ESCROW_STATUS.LISTED)] passes the string
    'listed' to [_getList] when it is called without an argument.  On a
    primitive string, reading [query.nextPage] gives undefined, and the
    assignment [query.nextPage = ...] of strict code throws a TypeError,
    which rejects the promise of the async [_result]. *)
Inductive string_outcome :=
| Settles (o : settled value)
| TypeError (reason : string).

Section String_query.

Context {P : Packages}.

(** [QueryString.stringify] applied to a primitive string. *)
Variable stringify_string : string → string.

Definition queryString_string (s : string) : string :=
  let qs := stringify_string s in
  if truthy (VStr qs) then "?" +:+ qs else "".

Definition _result_string (resultPromise : settled raw_result)
    (query : string) (c : GfApi) : string_outcome * GfApi :=
  match resultPromise with
  | Rejected e => (Settles (Rejected e), c)
  | Resolved result =>
      let apiData := apiData_of result in
      if loose_eq_SUCCESS (get apiData "status") then
        let c := log_trace ("SUCCESS: " +:+ JSON_stringify apiData) c in
        if Util.isNull (get apiData "next_page")
           && Util.emptyArray (get apiData "data")
        then (Settles (Resolved VNull), c)
        else if truthy (VStr query)
        then (TypeError ("Cannot create property 'nextPage' on string '"
                         +:+ query +:+ "'"), c)
        else (Settles (Resolved (get apiData "data")), c)
      else
        let error := js_or (get apiData "error") (VObj []) in
        let response := response_of result in
        let statusCode :=
          Util.options [get error "code"; statusCode response] in
        let statusMessage :=
          Util.options [get error "message"; statusMessage response] in
        let c := log_trace ("FAIL: statusCode=" +:+ to_js_string statusCode
                            +:+ " statusMessage=" +:+ to_js_string statusMessage) c in
        (Settles (Rejected (HttpErrors statusCode statusMessage)), c)
  end.

(** [await this._getList(uri, query)] for a string [query]: the cursor
    read from it is undefined, which is not null and not truthy. *)
Definition _getList_string (uri query : string) (c : GfApi)
  : string_outcome * GfApi :=
  if strict_eq_null VUndef then (Settles (Resolved VNull), c)
  else
    let url := js_or VUndef
                     (VStr (to_js_string (baseUrl c) +:+ "/" +:+ uri
                            +:+ queryString_string query)) in
    let c := _entry ("GET " +:+ to_js_string url) c in
    match _authorizationHeader c with
    | inl e => (Settles (Rejected e), c)
    | inr h =>
        let '(p, c) := send {| req_method := GET; req_url := url;
                               req_headers := [("Authorization", h)];
                               req_data := None |} c in
        _result_string p query c
    end.

(** [await api.bulk_mine_get()] *)
Definition bulk_mine_get_default : GfApi → string_outcome * GfApi :=
  _getList_string "steam/bulk/mine" ESCROW_STATUS.LISTED.

End String_query.

(** ** More stand-ins for the worked examples *)

(** A client whose key has an unknown environment prefix. *)
Definition staging_client : GfApi :=
  constructor "staging-0123456789abcde" {[ "secret" := VStr "JBSWY3DPEHPK3PXP" ]} 0.

(** A transport that answers every request with one response. *)
Definition answering (result : raw_result) : Packages :=
  {| Speakeasy_totp := stub_totp;
     QueryString_stringify := stub_querystring;
     JSON_stringify := stub_stringify;
     transport := λ _, Resolved result |}.

(** An inventory of two pages, the second asked for with the
    [start_assetid] the first one names. *)
Definition inventory_page_1 : value :=
  VObj [("success", VBool true);
        ("assets", VArr [VObj [("assetid", VStr "98")];
                         VObj [("assetid", VStr "99")]]);
        ("more_items", VNum 1);
        ("last_assetid", VStr "99")].

Definition inventory_page_2 : value :=
  VObj [("success", VBool true);
        ("assets", VArr [VObj [("assetid", VStr "100")]])].

Definition inventory_querystring (obj : option (gmap string value)) : string :=
  match obj with
  | Some q =>
      match q !! "start_assetid" with
      | Some v => "start_assetid=" +:+ to_js_string v
      | None => ""
      end
  | None => ""
  end.

Definition inventory_transport (r : request) : settled raw_result :=
  match req_url r with
  | VStr u =>
      if String.eqb u "http://steamcommunity.com/inventory/76561198000000000/730/2"
      then Resolved (inventory_response inventory_page_1)
      else if String.eqb u
                "http://steamcommunity.com/inventory/76561198000000000/730/2?start_assetid=99"
      then Resolved (inventory_response inventory_page_2)
      else Rejected (TransportError "ENOTFOUND")
  | _ => Rejected (TransportError "ENOTFOUND")
  end.

Definition inventory_packages : Packages :=
  {| Speakeasy_totp := stub_totp;
     QueryString_stringify := inventory_querystring;
     JSON_stringify := stub_stringify;
     transport := inventory_transport |}.

(** The string 'SUCCESS', or an array of one element that is such a value
    in turn. *)
Fixpoint wraps_SUCCESS (v : value) : Prop :=
  match v with
  | VStr s => s = "SUCCESS"
  | VArr [x] => wraps_SUCCESS x
  | _ => False
  end.

(** The first character of [s], if any, is not [a]. *)
Definition not_headed (a : ascii) (s : string) : Prop :=
  match s with
  | EmptyString => True
  | String b _ => b ≠ a
  end.

(** [toUpperCase] on the letters a to z. *)
Fixpoint stub_toUpperCase (s : string) : string :=
  match s with
  | EmptyString => EmptyString
  | String a s' =>
      let n := nat_of_ascii a in
      String (if Nat.leb 97 n && Nat.leb n 122 then ascii_of_nat (n - 32) else a)
             (stub_toUpperCase s')
  end.

(** * Properties *)

Open Scope list_scope.

Lemma isNull_spec v : Util.isNull v = true ↔ v = VNull ∨ v = VUndef.
Proof.
  destruct v; simpl; intuition congruence.
Qed.

Lemma isNull_present v : Util.isNull v = false ↔ present v.
Proof.
  unfold present. destruct v; simpl; intuition congruence.
Qed.

Lemma emptyArray_spec v : Util.emptyArray v = true ↔ v = VArr [] ∨ v = VUndef.
Proof.
  destruct v as [| | | | |[|x l]|]; simpl; intuition congruence.
Qed.


Lemma get_js_or_empty d k : get (js_or d (VObj [])) k = get d k.
Proof.
  unfold js_or. destruct d as [| |b|n|s|l|fs]; simpl; try done;
    by case_match.
Qed.

Lemma no_more_data_decide apiData :
  Util.isNull (get apiData "next_page") && Util.emptyArray (get apiData "data") = true
  ↔ no_more_data apiData.
Proof.
  unfold no_more_data.
  rewrite andb_true_iff, isNull_spec, emptyArray_spec. done.
Qed.

Lemma no_more_items_decide apiData :
  Util.isNull (get apiData "more_items") && Util.emptyArray (get apiData "assets") = true
  ↔ no_more_items apiData.
Proof.
  unfold no_more_items.
  rewrite andb_true_iff, isNull_spec, emptyArray_spec. done.
Qed.

(** ** The result normalizers *)

Lemma options_one_or_null v : Util.options [v] = or_null v.
Proof. by destruct v. Qed.

(** A value with a property is an object, so [|| {}] keeps it. *)
Lemma js_or_empty_id d k : get d k ≠ VUndef → js_or d (VObj []) = d.
Proof. destruct d; simpl; done. Qed.

Lemma apiData_of_get result k :
  get (apiData_of result) k = get (data result) k.
Proof. apply get_js_or_empty. Qed.

Lemma apiData_of_id result k :
  get (data result) k ≠ VUndef → apiData_of result = data result.
Proof. apply js_or_empty_id. Qed.

Lemma loose_eq_SUCCESS_defined v : loose_eq_SUCCESS v = true → v ≠ VUndef.
Proof. by destruct v. Qed.

Lemma truthy_defined v : truthy v = true → v ≠ VUndef.
Proof. by destruct v. Qed.

(** ** The base URL *)

Lemma split_nonempty sep s : split sep s ≠ [].
Proof. destruct s as [|a s]; simpl; [done|]. repeat case_match; done. Qed.

Lemma split_without sep s : occurs sep s = false → split sep s = [s].
Proof.
  induction s as [|a s IH]; simpl; [done|].
  intros [Ha Hs]%orb_false_iff. rewrite Ha, (IH Hs). done.
Qed.

Lemma split_prefix sep env rest :
  occurs sep env = false →
  split sep (env +:+ String sep rest) = env :: split sep rest.
Proof.
  induction env as [|a env IH]; simpl.
  - intros _. by rewrite Ascii.eqb_refl.
  - intros [Ha Hs]%orb_false_iff. rewrite Ha, (IH Hs). done.
Qed.

Lemma baseUrl_unprefixed key secret now :
  occurs "-" key = false →
  baseUrl (constructor key secret now) = VStr CONST.BASE_URL_production.
Proof. intros H. unfold constructor. simpl. by rewrite (split_without _ _ H). Qed.

Lemma baseUrl_prefixed env rest secret now :
  occurs "-" env = false →
  baseUrl (constructor (env +:+ String "-" rest) secret now) = CONST.BASE_URL env.
Proof.
  intros H. unfold constructor. simpl. rewrite (split_prefix _ _ _ H).
  destruct (split "-" rest) as [|w ws] eqn:Hrest.
  - by apply split_nonempty in Hrest.
  - done.
Qed.

(** C7.  A key without a '-' selects the production base URL; a key that
    starts with the marker production, test or development followed by
    '-' selects the base URL of that environment. *)
Theorem baseUrl_by_prefix (key rest : string) (secret : gmap string value)
    (now : Z) :
  (occurs "-" key = false →
     baseUrl (constructor key secret now) = VStr CONST.BASE_URL_production) ∧
  baseUrl (constructor ("production-" +:+ rest) secret now)
    = VStr CONST.BASE_URL_production ∧
  baseUrl (constructor ("test-" +:+ rest) secret now)
    = VStr CONST.BASE_URL_test ∧
  baseUrl (constructor ("development-" +:+ rest) secret now)
    = VStr CONST.BASE_URL_development.
Proof.
  split; [apply baseUrl_unprefixed|].
  split; [|split].
  - by rewrite (baseUrl_prefixed "production" rest).
  - by rewrite (baseUrl_prefixed "test" rest).
  - by rewrite (baseUrl_prefixed "development" rest).
Qed.

(** ** The methods *)

Section Properties.

Context {P : Packages}.

(** The success branch of [_result], as one equation. *)
Lemma result_success_eq result query c :
  loose_eq_SUCCESS (get (data result) "status") = true →
  _result (Resolved result) query c =
    let c' := log_trace ("SUCCESS: " +:+ JSON_stringify (data result)) c in
    if Util.isNull (get (data result) "next_page")
       && Util.emptyArray (get (data result) "data")
    then (Resolved VNull, query, c')
    else (Resolved (get (data result) "data"),
          hand_off "nextPage" (or_null (get (data result) "next_page")) query,
          c').
Proof.
  intros Hs. unfold _result.
  rewrite (apiData_of_id result "status") by by apply loose_eq_SUCCESS_defined.
  rewrite Hs, options_one_or_null. by destruct query.
Qed.

(** The failure branch of [_result], as one equation. *)
Lemma result_failure_eq result query c :
  loose_eq_SUCCESS (get (data result) "status") = false →
  ∃ c',
    _result (Resolved result) query c =
      (Rejected
         (HttpErrors
            (Util.options [get (get (data result) "error") "code";
                           statusCode (response_of result)])
            (Util.options [get (get (data result) "error") "message";
                           statusMessage (response_of result)])),
       query, c').
Proof.
  intros Hs. unfold _result.
  rewrite apiData_of_get, Hs, !get_js_or_empty, apiData_of_get.
  eexists. reflexivity.
Qed.

(** The branches of [_steamResult]. *)
Lemma steamResult_success_eq result query c :
  truthy (get (data result) "success") = true →
  _steamResult (Resolved result) query c =
    let c' := log_trace ("SUCCESS: " +:+ JSON_stringify (data result)) c in
    if Util.isNull (get (data result) "more_items")
       && Util.emptyArray (get (data result) "assets")
    then (Resolved VNull, query, c')
    else (Resolved (data result),
          hand_off "start_assetid" (or_null (get (data result) "last_assetid")) query,
          c').
Proof.
  intros Hs. unfold _steamResult.
  rewrite (apiData_of_id result "success") by by apply truthy_defined.
  rewrite Hs, options_one_or_null. by destruct query.
Qed.

Lemma steamResult_failure_eq result query c :
  truthy (get (data result) "success") = false →
  ∃ c',
    _steamResult (Resolved result) query c =
      (Rejected (HttpErrors (statusCode (response_of result))
                            (statusMessage (response_of result))),
       query, c').
Proof.
  intros Hs. unfold _steamResult. rewrite apiData_of_get, Hs.
  eexists. reflexivity.
Qed.

(** The normalizers only add lines to the log of the client. *)
Lemma result_client rp query c :
  let c' := (_result rp query c).2 in
  apiKey c' = apiKey c ∧ secret c' = secret c ∧ baseUrl c' = baseUrl c ∧
  rateLimit c' = rateLimit c ∧ clock c' = clock c ∧
  waiting c' = waiting c ∧ sent c' = sent c.
Proof.
  unfold _result. destruct rp as [result|e]; [|done].
  repeat case_match; done.
Qed.

Lemma steamResult_client rp query c :
  let c' := (_steamResult rp query c).2 in
  apiKey c' = apiKey c ∧ secret c' = secret c ∧ baseUrl c' = baseUrl c ∧
  rateLimit c' = rateLimit c ∧ clock c' = clock c ∧
  waiting c' = waiting c ∧ sent c' = sent c.
Proof.
  unfold _steamResult. destruct rp as [result|e]; [|done].
  repeat case_match; done.
Qed.

(** C1 (as amended).  On a response whose data has status == 'SUCCESS',
    [_result] takes its early exit, resolving to [null] and leaving the
    query as it is, exactly when [next_page] is null or absent and [data]
    is empty or absent; otherwise it writes [next_page] (or [null] if it
    is absent) into [query.nextPage] when a query was supplied and
    resolves to [data.data] as it is.  The resolved value is therefore
    [null] exactly when there is no more data or [data.data] is itself
    [null]. *)
Theorem result_success result query c :
  loose_eq_SUCCESS (get (data result) "status") = true →
  let r := _result (Resolved result) query c in
  (no_more_data (data result) →
     r.1.1 = Resolved VNull ∧ r.1.2 = query) ∧
  (¬ no_more_data (data result) →
     r.1.1 = Resolved (get (data result) "data") ∧
     r.1.2 = hand_off "nextPage" (or_null (get (data result) "next_page")) query) ∧
  (r.1.1 = Resolved VNull ↔
     no_more_data (data result) ∨ get (data result) "data" = VNull).
Proof.
  intros Hs r. subst r. rewrite (result_success_eq _ _ _ Hs). cbv zeta.
  destruct (Util.isNull _ && Util.emptyArray _) eqn:Hn; simpl.
  - apply no_more_data_decide in Hn. by intuition.
  - assert (¬ no_more_data (data result)) as Hnn.
    { intros Hm. apply no_more_data_decide in Hm. congruence. }
    split; [done|]. split; [done|]. split.
    + intros [= ->]. by right.
    + intros [Hm| ->]; done.
Qed.



(** C4.  [_steamResult]: when [data.success] is truthy and more data is
    indicated, it resolves to the full data object and, when a query was
    supplied, writes [data.last_assetid] (or [null] if it is absent) into
    [query.start_assetid]; when [data.success] is falsy it rejects with
    [HttpErrors] of the raw HTTP response's [statusCode] and
    [statusMessage]. *)
Theorem steamResult_cases result query c :
  let r := _steamResult (Resolved result) query c in
  (truthy (get (data result) "success") = true →
   ¬ no_more_items (data result) →
     r.1.1 = Resolved (data result) ∧
     r.1.2 = hand_off "start_assetid"
                      (or_null (get (data result) "last_assetid")) query) ∧
  (truthy (get (data result) "success") = false →
     r.1.1 = Rejected (HttpErrors (statusCode (response_of result))
                                  (statusMessage (response_of result))) ∧
     r.1.2 = query).
Proof.
  intros r. subst r. split.
  - intros Hs Hm. rewrite (steamResult_success_eq _ _ _ Hs). cbv zeta.
    destruct (Util.isNull _ && Util.emptyArray _) eqn:Hn; [|done].
    apply no_more_items_decide in Hn. done.
  - intros Hs. destruct (steamResult_failure_eq result query c Hs) as [c' ->].
    done.
Qed.

(** C10.  A normalizer called with a query object changes no field of the
    query but its cursor field ([nextPage] for [_result], [start_assetid]
    for [_steamResult]), and leaves the client's [apiKey], [secret] and
    [baseUrl] as they were. *)
Theorem normalizers_frame (rp : settled raw_result)
    (q : gmap string value) (c : GfApi) :
  let r := _result rp (Some q) c in
  let s := _steamResult rp (Some q) c in
  (∃ q', r.1.2 = Some q' ∧ ∀ k, k ≠ "nextPage" → q' !! k = q !! k) ∧
  (∃ q', s.1.2 = Some q' ∧ ∀ k, k ≠ "start_assetid" → q' !! k = q !! k) ∧
  (apiKey r.2 = apiKey c ∧ secret r.2 = secret c ∧ baseUrl r.2 = baseUrl c) ∧
  (apiKey s.2 = apiKey c ∧ secret s.2 = secret c ∧ baseUrl s.2 = baseUrl c).
Proof.
  intros r s.
  pose proof (result_client rp (Some q) c) as Hr.
  pose proof (steamResult_client rp (Some q) c) as Hs.
  cbv zeta in Hr, Hs. fold r in Hr. fold s in Hs.
  split; [|split; [|split; [tauto|tauto]]].
  - subst r. unfold _result. destruct rp as [result|e]; [|by exists q].
    repeat case_match; simpl; eexists; (split; [reflexivity|]);
      intros k Hk; by rewrite ?lookup_insert_ne.
  - subst s. unfold _steamResult. destruct rp as [result|e]; [|by exists q].
    repeat case_match; simpl; eexists; (split; [reflexivity|]);
      intros k Hk; by rewrite ?lookup_insert_ne.
Qed.

(** ** The authorization header *)

(** [Object.assign(defaults, secret)]: the caller's fields, and the
    defaults of the fields the caller left out. *)
Lemma constructor_secret key user_secret now k :
  secret (constructor key user_secret now) !! k =
    match user_secret !! k with
    | Some v => Some v
    | None => secret_defaults !! k
    end.
Proof.
  unfold constructor. simpl. rewrite lookup_union.
  destruct (user_secret !! k) as [v|]; [|by rewrite (left_id None _)].
  by destruct (secret_defaults !! k).
Qed.

(** C8.  The header is the literal GFAPI, a space, the API key, a colon
    and the passcode that Speakeasy computes from the client's secret
    configuration at the current instant; the configuration of a new
    client holds the caller's fields over the defaults base32, sha1,
    6 digits and a period of 30 seconds. *)
Theorem authorizationHeader_format (c : GfApi) (key : string)
    (user_secret : gmap string value) (now : Z) :
  (∀ code, Speakeasy_totp (secret c) (clock c) = inr code →
     _authorizationHeader c = inr ("GFAPI " +:+ apiKey c +:+ ":" +:+ code)) ∧
  (let c0 := constructor key user_secret now in
   apiKey c0 = key ∧
   (∀ k v, user_secret !! k = Some v → secret c0 !! k = Some v) ∧
   (∀ k, user_secret !! k = None → secret c0 !! k = secret_defaults !! k)) ∧
  (secret_defaults !! "encoding" = Some (VStr "base32") ∧
   secret_defaults !! "algorithm" = Some (VStr "sha1") ∧
   secret_defaults !! "digits" = Some (VNum 6) ∧
   secret_defaults !! "period" = Some (VNum 30)).
Proof.
  split; [|split].
  - intros code Hcode. unfold _authorizationHeader. by rewrite Hcode.
  - cbv zeta. split; [done|]. split.
    + intros k v Hk. by rewrite constructor_secret, Hk.
    + intros k Hk. by rewrite constructor_secret, Hk.
  - repeat split; reflexivity.
Qed.



(** ** The cursor short-circuit *)

(** C3.  With the cursor field of the query set to null, [_getList] (and
    [steam_inventory_get]) returns null at once: the client is as before
    (nothing queued at the rate limiter, nothing sent, nothing logged) and
    the awaited call leaves the query as it was. *)
Theorem null_cursor_short_circuit (uri profileid appId : string)
    (query : gmap string value) (c : GfApi) :
  (query !! "nextPage" = Some VNull →
     _getList uri query c = (ReturnsNull, c) ∧
     await (_getList uri query c) query
       = (Resolved VNull, query, c)) ∧
  (query !! "start_assetid" = Some VNull →
     steam_inventory_get profileid appId query c = (ReturnsNull, c) ∧
     await (steam_inventory_get profileid appId query c) query
       = (Resolved VNull, query, c)).
Proof.
  split; intros Hq.
  - assert (_getList uri query c = (ReturnsNull, c)) as Hr.
    { unfold _getList, prop. by rewrite Hq. }
    by rewrite Hr.
  - assert (steam_inventory_get profileid appId query c = (ReturnsNull, c)) as Hr.
    { unfold steam_inventory_get, prop. by rewrite Hq. }
    by rewrite Hr.
Qed.

(** ** The rate limiter *)

(** The continuation of [_entry] only logs. *)
Lemma entry_resumes_sent i c :
  sent (entry_resumes i c) = sent c ∧ clock (entry_resumes i c) = clock c.
Proof. unfold entry_resumes. by destruct (waiting c !! i) as [[t text]|]. Qed.

(** A signed request goes out at the instant of the call, behind whatever
    is queued at the rate limiter. *)
Lemma get_sends uri query c code :
  Speakeasy_totp (secret c) (clock c) = inr code →
  ∃ r text,
    sent (_get uri query c).2 = sent c ++ [(clock c, r)] ∧
    waiting (_get uri query c).2 = waiting c ++ [(clock c, text)] ∧
    log (_get uri query c).2 = log c ∧
    clock (_get uri query c).2 = clock c ∧
    secret (_get uri query c).2 = secret c.
Proof.
  intros H. unfold _get, signed, _authorizationHeader. simpl.
  rewrite H. simpl. eexists _, _. done.
Qed.

(** C6 (what the code does).  Two calls of [_get] made one after the other
    hand both their requests to the transport at the instant of the
    calls, while both of their calls of the rate limiter are still queued
    and neither debug line is logged: the starts of the two requests are
    not separated by the limiter's interval. *)
Theorem requests_bypass_rate_limit (uri1 uri2 : string)
    (q1 q2 : option (gmap string value)) (c : GfApi) (code : string) :
  Speakeasy_totp (secret c) (clock c) = inr code →
  let c1 := (_get uri1 q1 c).2 in
  let c2 := (_get uri2 q2 c1).2 in
  ∃ r1 r2 text1 text2,
    sent c2 = sent c ++ [(clock c, r1); (clock c, r2)] ∧
    waiting c2 = waiting c ++ [(clock c, text1); (clock c, text2)] ∧
    log c2 = log c.
Proof.
  intros H c1 c2.
  destruct (get_sends uri1 q1 c code H) as (r1 & t1 & Hs1 & Hw1 & Hl1 & Hc1 & Hk1).
  fold c1 in Hs1, Hw1, Hl1, Hc1, Hk1.
  assert (Speakeasy_totp (secret c1) (clock c1) = inr code) as H1
    by by rewrite Hk1, Hc1.
  destruct (get_sends uri2 q2 c1 code H1) as (r2 & t2 & Hs2 & Hw2 & Hl2 & _).
  fold c2 in Hs2, Hw2, Hl2.
  exists r1, r2, t1, t2.
  rewrite Hs2, Hw2, Hl2, Hs1, Hw1, Hl1, Hc1, <- !(assoc_L (++)). done.
Qed.

(** ** Pagination *)





End Properties.

(** * Further properties of the code *)

(** ** Util *)

Lemma absent_isNull v : absent v ↔ Util.isNull v = true.
Proof. unfold absent. destruct v; simpl; intuition congruence. Qed.

Lemma options_skips skipped x rest :
  Forall absent skipped → Util.options (skipped ++ x :: rest) = Util.options (x :: rest).
Proof.
  induction 1 as [|v skipped Hv _ IH]; [done|].
  simpl. apply absent_isNull in Hv. by rewrite Hv.
Qed.

(** X16.  [Util.options] over any number of arguments: the result is the first
    argument that is neither undefined nor null; it is null exactly when
    there is none, and it is never undefined. *)
Theorem options_first_present (args : list value) :
  (∀ skipped x rest,
     args = skipped ++ x :: rest → Forall absent skipped → present x →
     Util.options args = x) ∧
  (Util.options args = VNull ↔ Forall absent args) ∧
  Util.options args ≠ VUndef.
Proof.
  split; [|split].
  - intros skipped x rest -> Hs Hx. rewrite options_skips by done.
    simpl. apply isNull_present in Hx. by rewrite Hx.
  - induction args as [|v args IH]; simpl; [done|].
    destruct (Util.isNull v) eqn:Hv.
    + rewrite IH. split.
      * intros H. constructor; [by apply absent_isNull|done].
      * by inversion 1.
    + split.
      * intros ->. done.
      * inversion 1 as [|? ? Ha _]; subst. apply absent_isNull in Ha. congruence.
  - induction args as [|v args IH]; simpl; [done|].
    destruct (Util.isNull v) eqn:Hv; [done|]. by destruct v.
Qed.

(** ** The test for success *)

Lemma pretty_N_go_not_headed x s :
  not_headed "S" s → not_headed "S" (pretty_N_go x s).
Proof.
  revert s. induction (N.lt_wf_0 x) as [x _ IH]; intros s Hs.
  assert (x = 0 ∨ 0 < x)%N as [->|Hx] by lia.
  - by rewrite pretty_N_go_0.
  - rewrite pretty_N_go_step by done. apply IH.
    { by apply N.div_lt. }
    simpl. unfold pretty_N_char. by repeat case_match.
Qed.

Lemma pretty_Z_not_SUCCESS (n : Z) : pretty n ≠ "SUCCESS".
Proof.
  destruct n as [|p|p]; [done| |done].
  unfold pretty, pretty_Z, pretty, pretty_positive, pretty, pretty_N.
  case_decide as Hp; [done|].
  intros Heq. pose proof (pretty_N_go_not_headed (N.pos p) "" I) as Hh.
  rewrite Heq in Hh. by apply Hh.
Qed.

Lemma comma_not_SUCCESS s1 s2 : s1 +:+ "," +:+ s2 ≠ "SUCCESS".
Proof.
  intros H. assert (occurs "," (s1 +:+ "," +:+ s2) = true) as Ho.
  { clear H. induction s1 as [|a s1 IH]; simpl; [done|].
    rewrite IH. by rewrite orb_true_r. }
  rewrite H in Ho. done.
Qed.

Lemma to_js_string_SUCCESS :
  ∀ v, to_js_string v = "SUCCESS" ↔ wraps_SUCCESS v.
Proof.
  fix IH 1.
  intros [| |[|]|n|s|[|x [|y rest]]|fs]; simpl; try (split; done).
  - split; [|done]. intros H. by apply pretty_Z_not_SUCCESS in H.
  - destruct x as [| |b|n|s|l|fs] eqn:Hx; try (split; done);
      rewrite <- Hx; rewrite <- (IH x); by rewrite Hx.
  - split; [|done]. intros H. by apply comma_not_SUCCESS in H.
Qed.

(** X17.  The test [apiData.status == 'SUCCESS'] is loose: besides the
    string 'SUCCESS' it accepts an array of one element that is itself
    accepted (so ["SUCCESS"] counts as a success), and nothing else: no
    number, boolean, null, object, or array of another length. *)
Theorem loose_success_forms (v : value) :
  loose_eq_SUCCESS v = true ↔ wraps_SUCCESS v.
Proof.
  destruct v as [| |b|n|s|l|fs]; try (simpl; split; done).
  - simpl. split; [by intros ->%String.eqb_eq|intros ->; done].
  - unfold loose_eq_SUCCESS. rewrite String.eqb_eq.
    apply to_js_string_SUCCESS.
Qed.

Section More_properties.

Context {P : Packages}.

(** ** What a call does before it returns *)

Lemma signed_ok m url ct body b c code :
  Speakeasy_totp (secret c) (clock c) = inr code →
  signed m url ct body b c =
    let r := signed_request m url ct body ("GFAPI " +:+ apiKey c +:+ ":" +:+ code) in
    (ReturnsPromise (Result_of (transport r) b),
     with_sent (sent c ++ [(clock c, r)]) c).
Proof.
  intros H. unfold signed, _authorizationHeader. rewrite H.
  unfold send, signed_request. by destruct ct.
Qed.

Lemma signed_throw m url ct body b c e :
  Speakeasy_totp (secret c) (clock c) = inl e →
  signed m url ct body b c = (Throws e, c).
Proof. intros H. unfold signed, _authorizationHeader. by rewrite H. Qed.

Lemma signed_appends m url ct body b c text :
  appends_at_most_one c (signed m url ct body b (_entry text c)).2.
Proof.
  destruct (Speakeasy_totp (secret c) (clock c)) as [e|code] eqn:H.
  - rewrite (signed_throw _ _ _ _ _ _ e) by done.
    exists [(clock c, text)], []. unfold grows_by. simpl.
    rewrite app_nil_r. by auto 12.
  - rewrite (signed_ok _ _ _ _ _ _ code) by done.
    eexists [(clock c, text)], [_]. unfold grows_by. simpl. by auto 12.
Qed.

Lemma unchanged_appends c : appends_at_most_one c c.
Proof.
  exists [], []. unfold grows_by. rewrite !app_nil_r. simpl. by auto 12.
Qed.

Lemma getList_appends uri query c :
  appends_at_most_one c (_getList uri query c).2.
Proof.
  unfold _getList.
  destruct (strict_eq_null _); [apply unchanged_appends|apply signed_appends].
Qed.

(** X1.  Whatever its arguments, the synchronous part of a method call
    queues at most one call of the rate limiter and hands at most one
    request to the transport, none unless a call was queued; it keeps
    what was queued and sent before, logs nothing, and leaves the clock,
    the limiter interval, the API key, the secret and the base URL as
    they were. *)
Theorem calls_append_at_most_one (c : GfApi) :
  (∀ uri query, appends_at_most_one c (_get uri query c).2) ∧
  (∀ uri query, appends_at_most_one c (_getList uri query c).2) ∧
  (∀ uri body, appends_at_most_one c (_post uri body c).2) ∧
  (∀ uri body, appends_at_most_one c (_put uri body c).2) ∧
  (∀ uri body, appends_at_most_one c (_patch uri body c).2) ∧
  (∀ profileid appId query,
     appends_at_most_one c (steam_inventory_get profileid appId query c).2).
Proof.
  repeat split.
  - intros. apply signed_appends.
  - intros. apply getList_appends.
  - intros. apply signed_appends.
  - intros. apply signed_appends.
  - intros. apply signed_appends.
  - intros pid app query. unfold steam_inventory_get.
    destruct (strict_eq_null _); [apply unchanged_appends|].
    eexists [_], [_]. unfold grows_by. simpl. by auto 12.
Qed.

(** X2.  [_post] and [_put] attach the body to the request only when it is
    truthy (so [null], [0], [false] and the empty string are sent as no
    body at all), while [_patch] always attaches it; the first two send
    Content-Type application/json, [_patch] application/json-patch+json;
    all three go to [baseUrl/uri] with the Authorization header first. *)
Theorem write_requests (uri : string) (body : value) (c : GfApi)
    (code : string) :
  Speakeasy_totp (secret c) (clock c) = inr code →
  let h := "GFAPI " +:+ apiKey c +:+ ":" +:+ code in
  let url := VStr (to_js_string (baseUrl c) +:+ "/" +:+ uri) in
  let sends (m : completion * GfApi) (r : request) :=
    sent m.2 = sent c ++ [(clock c, r)] ∧
    m.1 = ReturnsPromise (Result_of (transport r) false) in
  sends (_post uri body c)
        (signed_request POST url (Some "application/json")
           (if truthy body then Some body else None) h) ∧
  sends (_put uri body c)
        (signed_request PUT url (Some "application/json")
           (if truthy body then Some body else None) h) ∧
  sends (_patch uri body c)
        (signed_request PATCH url (Some "application/json-patch+json")
           (Some body) h).
Proof.
  intros H h url sends. subst sends. cbv beta.
  unfold _post, _put, _patch.
  rewrite !(signed_ok _ _ _ _ _ _ code) by exact H.
  by repeat split.
Qed.

(** X3.  A key whose prefix before the first '-' is none of production,
    test and development (nor the name of a member every object
    inherits) makes a client without a base URL, and the requests of that
    client go to the literal path "undefined/...". *)
Theorem unknown_prefix_requests (env rest uri : string)
    (user_secret : gmap string value) (now : Z)
    (query : option (gmap string value)) (code : string) :
  occurs "-" env = false →
  env ≠ "production" → env ≠ "test" → env ≠ "development" →
  inherited_member env = false →
  let c := constructor (env +:+ String "-" rest) user_secret now in
  Speakeasy_totp (secret c) (clock c) = inr code →
  baseUrl c = VUndef ∧
  sent_urls (_get uri query c).2
    = [VStr ("undefined/" +:+ uri +:+ queryString query)].
Proof.
  intros Hdash Hp Ht Hd _ c Hcode.
  assert (baseUrl c = VUndef) as Hbase.
  { subst c. rewrite baseUrl_prefixed by done. unfold CONST.BASE_URL.
    apply String.eqb_neq in Hp, Ht, Hd. by rewrite Hp, Ht, Hd. }
  split; [done|].
  assert (sent c = []) as Hsent by done.
  clearbody c.
  unfold _get. rewrite (signed_ok _ _ _ _ _ _ code) by exact Hcode.
  unfold sent_urls. simpl. by rewrite Hbase, Hsent.
Qed.

(** X4.  [steam_inventory_get] does not sign: whatever Speakeasy would do
    with the secret, a call whose cursor is not null never throws and
    sends one GET without headers to the steamcommunity inventory URL,
    whose context segment is 1 for the apps 433850 and 295110 and 2 for
    every other app id (the names of inherited members aside). *)
Theorem steam_inventory_get_unsigned (profileid appId : string)
    (query : gmap string value) (c : GfApi) :
  prop query "start_assetid" ≠ VNull →
  inherited_member appId = false →
  let r := {| req_method := GET;
              req_url := VStr (steam_url profileid appId query);
              req_headers := []; req_data := None |} in
  (steam_inventory_get profileid appId query c).1
    = ReturnsPromise (SteamResult_of (transport r) true) ∧
  sent (steam_inventory_get profileid appId query c).2
    = sent c ++ [(clock c, r)] ∧
  CONST.STEAM_CONTEXT_ID appId
    = (if bool_decide (appId = "433850" ∨ appId = "295110") then "1" else "2").
Proof.
  intros Hq _ r. unfold steam_inventory_get.
  assert (strict_eq_null (prop query "start_assetid") = false) as ->
    by by destruct (prop query "start_assetid").
  split; [done|]. split; [done|].
  unfold CONST.STEAM_CONTEXT_ID. case_bool_decide as Hd.
  - by destruct Hd as [-> | ->].
  - destruct (String.eqb_spec appId "433850"); [exfalso; auto|].
    destruct (String.eqb_spec appId "295110"); [exfalso; auto|]. done.
Qed.

(** X5.  When [_authorizationHeader] throws, the call has already queued
    its call of the rate limiter: nothing is sent, yet once the limiter
    resolves that call the debug line of the request is logged. *)
Theorem failed_call_still_logs_entry (uri : string)
    (query : option (gmap string value)) (c : GfApi) (e : exn) :
  Speakeasy_totp (secret c) (clock c) = inl e →
  let c' := (_get uri query c).2 in
  let text := "GET '" +:+ (to_js_string (baseUrl c) +:+ "/" +:+ uri
                           +:+ queryString query) +:+ "'" in
  waiting c' = waiting c ++ [(clock c, text)] ∧
  sent c' = sent c ∧
  log (entry_resumes (length (waiting c)) c') = log c ++ [debug text] ∧
  sent (entry_resumes (length (waiting c)) c') = sent c.
Proof.
  intros H c' text. subst c'. unfold _get.
  rewrite (signed_throw _ _ _ _ _ _ e) by exact H. simpl.
  split; [done|]. split; [done|].
  unfold entry_resumes. simpl.
  rewrite lookup_app_r by done. rewrite Nat.sub_diag. simpl. done.
Qed.

(** ** What the normalizers resolve to *)

(** X6.  [_steamResult] resolves to null exactly when [success] is truthy
    and there is no more data ([more_items] null or absent and [assets]
    empty or absent): its payload is the data object itself, which is
    never null. *)
Theorem steamResult_null_iff (result : raw_result)
    (query : option (gmap string value)) (c : GfApi) :
  (_steamResult (Resolved result) query c).1.1 = Resolved VNull
  ↔ truthy (get (data result) "success") = true ∧ no_more_items (data result).
Proof.
  destruct (truthy (get (data result) "success")) eqn:Hs.
  - rewrite (steamResult_success_eq _ _ _ Hs). cbv zeta.
    destruct (Util.isNull _ && Util.emptyArray _) eqn:Hn; simpl.
    + apply no_more_items_decide in Hn. by intuition.
    + split.
      * intros [= Hd]. rewrite Hd in Hs. done.
      * intros [_ Hm]. apply no_more_items_decide in Hm. congruence.
  - destruct (steamResult_failure_eq result query c Hs) as [c' ->]. simpl.
    split; [done|]. by intros [? _].
Qed.

Lemma result_rejected_query rp query c e :
  (_result rp query c).1.1 = Rejected e → (_result rp query c).1.2 = query.
Proof.
  unfold _result. destruct rp as [result|e']; [|done].
  repeat case_match; simpl; done.
Qed.

Lemma steamResult_rejected_query rp query c e :
  (_steamResult rp query c).1.1 = Rejected e →
  (_steamResult rp query c).1.2 = query.
Proof.
  unfold _steamResult. destruct rp as [result|e']; [|done].
  repeat case_match; simpl; done.
Qed.

Lemma await_client call query :
  baseUrl (await call query).2 = baseUrl call.2 ∧
  secret (await call query).2 = secret call.2 ∧
  sent (await call query).2 = sent call.2 ∧
  waiting (await call query).2 = waiting call.2.
Proof.
  destruct call as [[e| |[p b|p b]] c]; simpl; try done.
  - pose proof (result_client p (if b then Some query else None) c) as H.
    destruct (_result _ _ _) as [[o q] c']. simpl in *. tauto.
  - pose proof (steamResult_client p (if b then Some query else None) c) as H.
    destruct (_steamResult _ _ _) as [[o q] c']. simpl in *. tauto.
Qed.

Lemma await_rejected_query call query e :
  (await call query).1.1 = Rejected e → (await call query).1.2 = query.
Proof.
  destruct call as [[e'| |[p b|p b]] c]; simpl; try done.
  - pose proof (result_rejected_query p (if b then Some query else None) c e) as H.
    destruct (_result _ _ _) as [[o q] c']. simpl in *.
    intros Ho. rewrite (H Ho). by destruct b.
  - pose proof (steamResult_rejected_query p (if b then Some query else None) c e) as H.
    destruct (_steamResult _ _ _) as [[o q] c']. simpl in *.
    intros Ho. rewrite (H Ho). by destruct b.
Qed.

(** X7.  An awaited list or inventory call that fails, for whatever reason
    (a throwing header, a rejected transport promise, a response that is
    not a success), leaves the query object exactly as it was, so calling
    again asks for the same URL. *)
Theorem rejected_call_keeps_cursor (uri profileid appId : string)
    (query : gmap string value) (c : GfApi) (e : exn) :
  let r := await (_getList uri query c) query in
  let s := await (steam_inventory_get profileid appId query c) query in
  (r.1.1 = Rejected e →
     r.1.2 = query ∧ list_url uri r.1.2 r.2 = list_url uri query c) ∧
  (s.1.1 = Rejected e →
     s.1.2 = query ∧
     steam_url profileid appId s.1.2 = steam_url profileid appId query).
Proof.
  intros r s. subst r s. split.
  - intros Hr. apply await_rejected_query in Hr. split; [done|].
    rewrite Hr. unfold list_url.
    destruct (await_client (_getList uri query c) query) as [-> _].
    destruct (getList_appends uri query c) as (? & ? & Hg & _).
    unfold grows_by in Hg.
    by rewrite (proj2 (proj2 (proj2 (proj2 (proj2 (proj2 (proj2 Hg))))))).
  - intros Hs. apply await_rejected_query in Hs. by rewrite Hs.
Qed.


(** ** How calls compose *)

(** X9.  After a successful page that carries data and announces no
    [next_page], the cursor written into the query is null, so the next
    list call on that query returns null without touching the client. *)
Theorem last_page_closes_cursor (result : raw_result)
    (query : gmap string value) (c : GfApi) :
  loose_eq_SUCCESS (get (data result) "status") = true →
  absent (get (data result) "next_page") →
  ¬ (get (data result) "data" = VArr [] ∨ get (data result) "data" = VUndef) →
  ∃ query',
    (_result (Resolved result) (Some query) c).1.2 = Some query' ∧
    query' !! "nextPage" = Some VNull ∧
    ∀ uri c2, _getList uri query' c2 = (ReturnsNull, c2).
Proof.
  intros Hs Hnext Hdata.
  rewrite (result_success_eq _ _ _ Hs). cbv zeta.
  assert (Util.emptyArray (get (data result) "data") = false) as He.
  { destruct (Util.emptyArray _) eqn:He; [|done].
    apply emptyArray_spec in He. done. }
  rewrite He, andb_false_r. simpl.
  assert (or_null (get (data result) "next_page") = VNull) as ->
    by by destruct Hnext as [-> | ->].
  eexists. split; [done|]. split; [by rewrite lookup_insert_eq|].
  intros uri c2. unfold _getList, prop. by rewrite lookup_insert_eq.
Qed.

(** X10.  The same for the inventory: after a successful page without
    [last_assetid], the next inventory call on that query returns null
    without touching the client. *)
Theorem last_assets_close_cursor (result : raw_result)
    (query : gmap string value) (c : GfApi) :
  truthy (get (data result) "success") = true →
  absent (get (data result) "last_assetid") →
  ¬ no_more_items (data result) →
  ∃ query',
    (_steamResult (Resolved result) (Some query) c).1.2 = Some query' ∧
    ∀ profileid appId c2,
      steam_inventory_get profileid appId query' c2 = (ReturnsNull, c2).
Proof.
  intros Hs Hlast Hmore.
  rewrite (steamResult_success_eq _ _ _ Hs). cbv zeta.
  destruct (Util.isNull _ && Util.emptyArray _) eqn:Hn.
  { apply no_more_items_decide in Hn. done. }
  assert (or_null (get (data result) "last_assetid") = VNull) as ->
    by by destruct Hlast as [-> | ->].
  eexists. split; [done|].
  intros pid app c2. unfold steam_inventory_get, prop.
  by rewrite lookup_insert_eq.
Qed.



Lemma steam_page pid app (query : gmap string value) c d :
  prop query "start_assetid" ≠ VNull →
  (∀ r, req_method r = GET → req_url r = VStr (steam_url pid app query) →
        transport r = Resolved (inventory_response d)) →
  truthy (get d "success") = true → ¬ no_more_items d →
  ∃ c',
    await (steam_inventory_get pid app query c) query
      = (Resolved d, <["start_assetid" := or_null (get d "last_assetid")]> query, c') ∧
    sent_urls c' = sent_urls c ++ [VStr (steam_url pid app query)].
Proof.
  intros Hq Hserve Hs Hmore. unfold steam_inventory_get.
  assert (strict_eq_null (prop query "start_assetid") = false) as ->
    by by destruct (prop query "start_assetid").
  unfold send. rewrite Hserve by done. unfold await.
  rewrite (steamResult_success_eq (inventory_response d) _ _ Hs). cbv zeta.
  change (data (inventory_response d)) with d.
  destruct (Util.isNull _ && Util.emptyArray _) eqn:Hn.
  { apply no_more_items_decide in Hn. done. }
  simpl. eexists. split; [done|]. unfold sent_urls. simpl. by rewrite map_app.
Qed.

Lemma inventory_traversal_from pages :
  ∀ (delays : list Z) pid app (query : gmap string value) c,
    length delays = S (length pages) →
    prop query "start_assetid" ≠ VNull →
    inventory_linked pages →
    inventory_serves pid app query pages →
    let r := steam_calls delays pid app query c in
    r.1.1 = map Resolved pages ++ [Resolved VNull] ∧
    sent_urls r.2 = sent_urls c ++ inventory_urls pid app query pages ∧
    r.1.2 !! "start_assetid" = Some VNull.
Proof.
  induction pages as [|d rest IH];
    intros delays pid app query c Hlen Hq Hlinked Hserves; [done|].
  destruct delays as [|dt delays]; [done|]. injection Hlen as Hlen.
  destruct Hserves as [Hpage Hrest].
  destruct Hlinked as (Hs & Hmore & Hlast).
  destruct (steam_page pid app query (elapse dt c) d Hq Hpage Hs Hmore)
    as (c' & Hawait & Hsent).
  cbv zeta. simpl steam_calls. rewrite Hawait.
  destruct rest as [|d' rest'].
  - assert (or_null (get d "last_assetid") = VNull) as ->
      by by destruct Hlast as [-> | ->].
    destruct delays as [|dt' [|? ?]]; try done. simpl steam_calls.
    unfold steam_inventory_get, prop. rewrite lookup_insert_eq. simpl.
    rewrite lookup_insert_eq. split; [done|]. split; [|done].
    unfold sent_urls in *. simpl in *. by rewrite Hsent.
  - destruct Hlast as [Hpresent Hlinked].
    specialize (IH delays pid app
                  (<["start_assetid" := or_null (get d "last_assetid")]> query) c' Hlen).
    destruct IH as (Hres & Hreq & Hcur); [|done|done|].
    + unfold prop. rewrite lookup_insert_eq. simpl.
      destruct Hpresent as [Hu Hn]. by destruct (get d "last_assetid").
    + destruct (steam_calls delays pid app _ c') as [[os q'] c''].
      unfold sent_urls in *. simpl in *.
      split; [by rewrite Hres|]. split; [|done].
      rewrite Hreq, Hsent. by rewrite <- (assoc_L (++)).
Qed.

(** X12.  Against a transport that serves a finite chain of inventory
    pages, each at the URL of the query as the page before it left it,
    awaited inventory calls on one shared query object resolve to the
    pages in order and then to null: with one call more than there are
    pages, the requests sent are exactly the URLs of the chain, each
    built from the query with the cursor the page before it wrote, and
    the cursor ends as null. *)
Theorem inventory_traversal (profileid appId : string)
    (query : gmap string value) (c : GfApi) (pages : list value)
    (delays : list Z) :
  prop query "start_assetid" ≠ VNull →
  inherited_member appId = false →
  length delays = S (length pages) →
  inventory_linked pages →
  inventory_serves profileid appId query pages →
  let r := steam_calls delays profileid appId query c in
  r.1.1 = map Resolved pages ++ [Resolved VNull] ∧
  sent_urls r.2 = sent_urls c ++ inventory_urls profileid appId query pages ∧
  r.1.2 !! "start_assetid" = Some VNull.
Proof.
  intros Hq _ Hlen Hlinked Hserves.
  by apply inventory_traversal_from.
Qed.

(** ** Requests that read *)


(** X18.  An [error] that is not an object (a string, a number, an
    array) contributes nothing to the failure: where the comparison of
    the status and the printing of the failure line do not throw,
    [_result] then rejects with the status code and message of the raw
    HTTP response (null where the response has none). *)
Theorem plain_error_is_ignored (result : raw_result)
    (query : option (gmap string value)) (c : GfApi) :
  prints (get (data result) "status") = true →
  loose_eq_SUCCESS (get (data result) "status") = false →
  prints (statusCode (response_of result)) = true →
  prints (statusMessage (response_of result)) = true →
  (∀ fields, get (data result) "error" ≠ VObj fields) →
  (_result (Resolved result) query c).1.1
    = Rejected (HttpErrors (or_null (statusCode (response_of result)))
                           (or_null (statusMessage (response_of result)))).
Proof.
  intros _ Hs _ _ Herr.
  destruct (result_failure_eq result query c Hs) as [c' ->]. simpl.
  assert (∀ k, get (get (data result) "error") k = VUndef) as Hk.
  { intros k. destruct (get (data result) "error") as [| | | | | |fs]; try done.
    by destruct (Herr fs). }
  rewrite !Hk.
  by destruct (statusCode (response_of result)),
              (statusMessage (response_of result)).
Qed.

Lemma null_cursor_calls delays uri (query : gmap string value) c :
  query !! "nextPage" = Some VNull →
  calls delays uri query c
    = (replicate (length delays) (Resolved VNull), query,
       foldl (λ c d, elapse d c) c delays).
Proof.
  intros Hq. revert c. induction delays as [|d delays IH]; intros c; [done|].
  simpl. unfold _getList, prop. rewrite Hq. simpl. by rewrite IH.
Qed.

Lemma null_cursor_steam_calls delays pid app (query : gmap string value) c :
  query !! "start_assetid" = Some VNull →
  steam_calls delays pid app query c
    = (replicate (length delays) (Resolved VNull), query,
       foldl (λ c d, elapse d c) c delays).
Proof.
  intros Hq. revert c. induction delays as [|d delays IH]; intros c; [done|].
  simpl. unfold steam_inventory_get, prop. rewrite Hq. simpl. by rewrite IH.
Qed.

Lemma elapse_all_sent delays c :
  sent (foldl (λ c d, elapse d c) c delays) = sent c ∧
  waiting (foldl (λ c d, elapse d c) c delays) = waiting c ∧
  log (foldl (λ c d, elapse d c) c delays) = log c.
Proof.
  revert c. induction delays as [|d delays IH]; intros c; [done|].
  simpl. by destruct (IH (elapse d c)) as (-> & -> & ->).
Qed.

(** X19.  A null cursor is final: however many list or inventory calls
    follow on that query and however long the caller waits between them,
    each resolves to null, the query stays as it is, and nothing is
    queued at the limiter, sent or logged. *)
Theorem null_cursor_is_final (delays : list Z) (uri profileid appId : string)
    (query : gmap string value) (c : GfApi) :
  let quiet (r : list (settled value) * gmap string value * GfApi) :=
    r.1.1 = replicate (length delays) (Resolved VNull) ∧ r.1.2 = query ∧
    sent r.2 = sent c ∧ waiting r.2 = waiting c ∧ log r.2 = log c in
  (query !! "nextPage" = Some VNull → quiet (calls delays uri query c)) ∧
  (query !! "start_assetid" = Some VNull →
     quiet (steam_calls delays profileid appId query c)).
Proof.
  intros quiet. subst quiet. cbv beta.
  destruct (elapse_all_sent delays c) as (Hs & Hw & Hl).
  split; intros Hq.
  - rewrite (null_cursor_calls _ _ _ _ Hq). simpl. by rewrite Hs, Hw, Hl.
  - rewrite (null_cursor_steam_calls _ _ _ _ _ Hq). simpl. by rewrite Hs, Hw, Hl.
Qed.

End More_properties.

(** ** The table of log names *)

Lemma log_names_fold (up : string → string) (m : gmap string string)
    (keys : list string) (acc : gmap string string) (level : string) :
  (∀ k, k ∈ keys → is_Some (m !! k)) →
  foldl (λ map key, <[key := up (default "" (m !! key))]> map) acc keys !! level
    = if decide (level ∈ keys) then up <$> m !! level else acc !! level.
Proof.
  revert acc. induction keys as [|k keys IH]; intros acc Hkeys.
  { case_decide as H; [by apply elem_of_nil in H|done]. }
  cbn [foldl]. rewrite IH by (intros k' Hk'; apply Hkeys; by right).
  destruct (decide (level ∈ keys)) as [Hin|Hnot];
    destruct (decide (level ∈ k :: keys)) as [Hin'|Hnot']; try done.
  - exfalso. apply Hnot'. by right.
  - apply elem_of_cons in Hin' as [->|Hin']; [|done].
    rewrite lookup_insert_eq.
    destruct (Hkeys k) as [v ->]; [by left|]. done.
  - rewrite lookup_insert_ne; [done|].
    intros ->. apply Hnot'. by left.
Qed.

(** X14.  [CONST.LOG_NAME_FROM_LEVEL] has exactly the keys of
    [Bunyan.nameFromLevel], each bound to the upper-cased name, in
    whatever order the keys are visited; a level the table does not know
    has no name (the names of inherited members aside). *)
Theorem LOG_NAME_FROM_LEVEL_lookup (toUpperCase : string → string)
    (nameFromLevel : gmap string string) (level : string) :
  inherited_member level = false →
  LOG_NAME_FROM_LEVEL toUpperCase nameFromLevel !! level
    = toUpperCase <$> nameFromLevel !! level.
Proof.
  intros _. unfold LOG_NAME_FROM_LEVEL. rewrite log_names_fold.
  - case_decide as Hin; [done|].
    destruct (nameFromLevel !! level) as [v|] eqn:Hl; [|done].
    exfalso. apply Hin. apply list_elem_of_fmap. exists (level, v).
    split; [done|]. by apply elem_of_map_to_list.
  - intros k [[k' v] [-> Hk]]%list_elem_of_fmap.
    apply elem_of_map_to_list in Hk. by exists v.
Qed.

Section String_query_properties.

Context {P : Packages}.

Variable stringify_string : string → string.

(** Where [_result] settles with a string for a query, it settles as it
    does without a query. *)
Lemma result_string_settles rp query c o c' :
  _result_string rp query c = (Settles o, c') →
  _result rp None c = (o, None, c').
Proof.
  unfold _result_string, _result. destruct rp as [result|e]; [|by intros [= <- <-]].
  repeat case_match; intros [= <- <-]; done.
Qed.

(** X15.  [bulk_mine_get()] called without an argument never resolves to
    a page: the default query is the string 'listed', so on every success
    that carries data the write of the cursor throws a TypeError, after
    the request has been sent; the call can only resolve to null or
    reject. *)
Theorem bulk_mine_get_default_never_pages (c : GfApi) :
  (∀ v, (bulk_mine_get_default stringify_string c).1 = Settles (Resolved v) →
        v = VNull) ∧
  (∀ code result,
     Speakeasy_totp (secret c) (clock c) = inr code →
     (∀ r, transport r = Resolved result) →
     loose_eq_SUCCESS (get (data result) "status") = true →
     ¬ no_more_data (data result) →
     (bulk_mine_get_default stringify_string c).1
       = TypeError "Cannot create property 'nextPage' on string 'listed'" ∧
     length (sent (bulk_mine_get_default stringify_string c).2)
       = S (length (sent c))).
Proof.
  unfold bulk_mine_get_default, _getList_string. simpl strict_eq_null. cbv iota.
  split.
  - intros v. unfold _authorizationHeader, send.
    destruct (Speakeasy_totp _ _) as [e|code]; [done|].
    unfold _result_string. destruct (transport _) as [result|e]; [|done].
    repeat case_match; simpl; try done. by intros [= <-].
  - intros code result Hcode Hup Hs Hmore.
    unfold _authorizationHeader. simpl secret. simpl clock. rewrite Hcode.
    unfold send. rewrite Hup. unfold _result_string.
    rewrite (apiData_of_id result "status") by by apply loose_eq_SUCCESS_defined.
    rewrite Hs.
    destruct (Util.isNull _ && Util.emptyArray _) eqn:Hn.
    { apply no_more_data_decide in Hn. done. }
    simpl. rewrite length_app. simpl. split; [done|lia].
Qed.

End String_query_properties.

(** * Worked examples *)

(** {status:"SUCCESS", data:[1,2,3], next_page:null} resolves to [1,2,3]
    and sets query.nextPage to null; {status:"SUCCESS", data:[],
    next_page:null} resolves to null and leaves the query alone. *)
Lemma result_success_examples :
  (let result :=
     {| data := VObj [("status", VStr "SUCCESS");
                      ("data", VArr [VNum 1; VNum 2; VNum 3]);
                      ("next_page", VNull)];
        response_of := http_ok |} in
   let r := _result (P := stub_packages) (Resolved result) (Some ∅) stub_client in
   r.1.1 = Resolved (VArr [VNum 1; VNum 2; VNum 3]) ∧
   r.1.2 = Some {[ "nextPage" := VNull ]}) ∧
  (let result :=
     {| data := VObj [("status", VStr "SUCCESS"); ("data", VArr []);
                      ("next_page", VNull)];
        response_of := http_ok |} in
   let r := _result (P := stub_packages) (Resolved result) (Some ∅) stub_client in
   r.1.1 = Resolved VNull ∧ r.1.2 = Some ∅).
Proof.
  split.
  - apply (result_success (P := stub_packages)
             {| data := VObj [("status", VStr "SUCCESS");
                              ("data", VArr [VNum 1; VNum 2; VNum 3]);
                              ("next_page", VNull)];
                response_of := http_ok |} (Some ∅) stub_client eq_refl).
    intros [_ [H|H]]; discriminate H.
  - apply (result_success (P := stub_packages)
             {| data := VObj [("status", VStr "SUCCESS"); ("data", VArr []);
                              ("next_page", VNull)];
                response_of := http_ok |} (Some ∅) stub_client eq_refl).
    split; by left.
Defined.

(** C1 as stated fails: {status:"SUCCESS", data:null, next_page:"..."}
    resolves to null although [next_page] is present. *)
Lemma result_null_payload_counterexample :
  ¬ (∀ (P : Packages) (result : raw_result)
       (query : option (gmap string value)) (c : GfApi),
       loose_eq_SUCCESS (get (data result) "status") = true →
       ((_result (Resolved result) query c).1.1 = Resolved VNull
        ↔ no_more_data (data result))).
Proof.
  intros H.
  pose (result :=
    {| data := VObj [("status", VStr "SUCCESS"); ("data", VNull);
                     ("next_page",
                      VStr "https://test-gameflip.fingershock.com/api/v1/listing?start=20")];
       response_of := http_ok |}).
  destruct (H stub_packages result None stub_client eq_refl) as [Hnull _].
  assert ((_result (P := stub_packages) (Resolved result) None stub_client).1.1
          = Resolved VNull) as Hr by reflexivity.
  destruct (Hnull Hr) as [[Hp|Hp] _]; discriminate Hp.
Qed.

(** {status:"FAIL", error:{code:422, message:"trade hold"}} rejects with
    HttpErrors(422, "trade hold"), whatever the raw HTTP status. *)
Lemma result_failure_example (raw : response) :
  ∃ c',
    _result (P := stub_packages)
      (Resolved {| data := VObj [("status", VStr "FAIL");
                                 ("error", VObj [("code", VNum 422);
                                                 ("message", VStr "trade hold")])];
                   response_of := raw |})
      None stub_client
    = (Rejected (HttpErrors (VNum 422) (VStr "trade hold")), None, c').
Proof. eexists. reflexivity. Qed.



(** {success:true, assets:[...], last_assetid:"99"} resolves to the full
    object and sets query.start_assetid to "99"; {success:false} under
    HTTP status 503 rejects with HttpErrors(503, statusMessage). *)
Lemma steamResult_examples :
  (let d := VObj [("success", VBool true);
                  ("assets", VArr [VObj [("assetid", VStr "98")];
                                   VObj [("assetid", VStr "99")]]);
                  ("last_assetid", VStr "99")] in
   let r := _steamResult (P := stub_packages)
              (Resolved {| data := d; response_of := http_ok |})
              (Some ∅) stub_client in
   r.1.1 = Resolved d ∧ r.1.2 = Some {[ "start_assetid" := VStr "99" ]}) ∧
  (let raw := {| statusCode := VNum 503;
                 statusMessage := VStr "Service Unavailable" |} in
   let r := _steamResult (P := stub_packages)
              (Resolved {| data := VObj [("success", VBool false)];
                           response_of := raw |})
              (Some ∅) stub_client in
   r.1.1 = Rejected (HttpErrors (VNum 503) (VStr "Service Unavailable")) ∧
   r.1.2 = Some ∅).
Proof.
  split.
  - apply (steamResult_cases (P := stub_packages)
             {| data := VObj [("success", VBool true);
                              ("assets", VArr [VObj [("assetid", VStr "98")];
                                               VObj [("assetid", VStr "99")]]);
                              ("last_assetid", VStr "99")];
                response_of := http_ok |} (Some ∅) stub_client);
      [reflexivity|].
    intros [_ [H|H]]; discriminate H.
  - apply (steamResult_cases (P := stub_packages)
             {| data := VObj [("success", VBool false)];
                response_of := {| statusCode := VNum 503;
                                  statusMessage := VStr "Service Unavailable" |} |}
             (Some ∅) stub_client).
    reflexivity.
Defined.

(** A key with any other prefix leaves the base URL undefined. *)
Example baseUrl_unknown_prefix :
  baseUrl (constructor "staging-0123456789abcde" ∅ 0) = VUndef.
Proof. reflexivity. Qed.

Lemma baseUrl_by_prefix_witness :
  baseUrl (constructor "0123456789abcde" ∅ 0) = VStr CONST.BASE_URL_production ∧
  baseUrl (constructor "test-0123456789abcde" ∅ 0) = VStr CONST.BASE_URL_test.
Proof.
  split.
  - exact (proj1 (baseUrl_by_prefix "0123456789abcde" "" ∅ 0) eq_refl).
  - exact (proj1 (proj2 (proj2 (baseUrl_by_prefix "" "0123456789abcde" ∅ 0)))).
Defined.

Lemma stub_totp_ok t :
  stub_totp (secret stub_client) t
    = inr (pretty (100000 + (t / 30000) `mod` 900000)).
Proof.
  unfold stub_totp.
  assert (secret stub_client !! "secret" = Some (VStr "JBSWY3DPEHPK3PXP")) as ->
    by (vm_compute; reflexivity).
  reflexivity.
Qed.


(** Two profile requests made back to back on a new client both start at
    time 0, with a limiter interval of 1000 ms. *)
Lemma profile_get_twice :
  let c1 := (profile_get (P := stub_packages) stub_client).2 in
  let c2 := (profile_get (P := stub_packages) c1).2 in
  map fst (sent c2) = [0; 0] ∧ length (waiting c2) = 2%nat ∧ log c2 = [] ∧
  rateLimit c2 = 1000.
Proof.
  destruct (requests_bypass_rate_limit (P := stub_packages)
              "account/me/profile" "account/me/profile" None None
              stub_client _ (stub_totp_ok 0))
    as (r1 & r2 & t1 & t2 & Hs & Hw & Hl).
  cbv zeta. unfold profile_get. rewrite Hs, Hw, Hl.
  repeat split.
Defined.



(** A query whose cursor is null: nothing happens. *)
Lemma null_cursor_example :
  let query : gmap string value := {[ "limit" := VNum 20; "nextPage" := VNull ]} in
  listing_search (P := stub_packages) query stub_client
    = (ReturnsNull, stub_client).
Proof.
  apply (null_cursor_short_circuit (P := stub_packages) "listing" "" "").
  vm_compute. reflexivity.
Defined.

(** The header of the stub client. *)
Lemma authorizationHeader_example :
  _authorizationHeader (P := stub_packages) stub_client
    = inr "GFAPI test-0123456789abcde:100000".
Proof.
  apply (proj1 (authorizationHeader_format (P := stub_packages)
                  stub_client "" ∅ 0)).
  apply stub_totp_ok.
Defined.

(** * More worked examples *)

Lemma staging_totp_ok :
  stub_totp (secret staging_client) (clock staging_client) = inr "100000".
Proof. vm_compute. reflexivity. Qed.

Lemma misconfigured_totp_throws :
  stub_totp (secret misconfigured_client) (clock misconfigured_client)
    = inl (TotpError "Speakeasy - totp - Missing secret").
Proof. vm_compute. reflexivity. Qed.

(** [bulk_post()] sends no body; [_patch] sends even a null body. *)
Lemma write_requests_example :
  map (λ x, req_data x.2) (sent (bulk_post (P := stub_packages) stub_client).2)
    = [None] ∧
  map (λ x, req_data x.2)
      (sent (_patch (P := stub_packages) "listing/1" VNull stub_client).2)
    = [Some VNull].
Proof.
  destruct (write_requests (P := stub_packages) "steam/bulk" VNull
              stub_client _ (stub_totp_ok 0)) as ((H1 & _) & _ & _).
  destruct (write_requests (P := stub_packages) "listing/1" VNull
              stub_client _ (stub_totp_ok 0)) as (_ & _ & (H3 & _)).
  unfold bulk_post. rewrite H1, H3. split; reflexivity.
Defined.

(** A staging key sends the profile request to "undefined/...". *)
Lemma unknown_prefix_example :
  baseUrl staging_client = VUndef ∧
  sent_urls (profile_get (P := stub_packages) staging_client).2
    = [VStr "undefined/account/me/profile"].
Proof.
  apply (unknown_prefix_requests (P := stub_packages) "staging"
           "0123456789abcde" "account/me/profile"
           {[ "secret" := VStr "JBSWY3DPEHPK3PXP" ]} 0 None "100000");
    [reflexivity|discriminate|discriminate|discriminate|reflexivity|].
  exact staging_totp_ok.
Defined.

(** A client without a secret still reads an inventory. *)
Lemma steam_unsigned_example :
  let call := steam_inventory_get (P := stub_packages)
                "76561198000000000" "730" ∅ misconfigured_client in
  call.1 = ReturnsPromise
             (SteamResult_of (Rejected (TransportError "ECONNREFUSED")) true) ∧
  sent_urls call.2
    = [VStr "http://steamcommunity.com/inventory/76561198000000000/730/2"].
Proof.
  assert (prop (∅ : gmap string value) "start_assetid" ≠ VNull) as Hq
    by (vm_compute; discriminate).
  destruct (steam_inventory_get_unsigned (P := stub_packages)
              "76561198000000000" "730" ∅ misconfigured_client Hq eq_refl)
    as (H1 & H2 & _).
  cbv zeta. unfold sent_urls. rewrite H1, H2. split; reflexivity.
Defined.

(** The entry of a request that was never sent is logged all the same. *)
Lemma failed_call_logs_example :
  let c' := (profile_get (P := stub_packages) misconfigured_client).2 in
  sent c' = [] ∧
  log (entry_resumes 0 c')
    = [debug "GET 'https://test-gameflip.fingershock.com/api/v1/account/me/profile'"].
Proof.
  destruct (failed_call_still_logs_entry (P := stub_packages)
              "account/me/profile" None misconfigured_client _
              misconfigured_totp_throws) as (_ & H2 & H3 & _).
  cbv zeta. unfold profile_get. split; [exact H2|exact H3].
Defined.


(** After the page {data:["x"], next_page:null} the next search returns
    null. *)
Lemma last_page_example :
  ∃ query',
    (_result (P := stub_packages)
       (Resolved (page_response [VStr "x"] VNull)) (Some ∅) stub_client).1.2
      = Some query' ∧
    query' !! "nextPage" = Some VNull ∧
    ∀ uri c2, _getList (P := stub_packages) uri query' c2 = (ReturnsNull, c2).
Proof.
  apply (last_page_closes_cursor (P := stub_packages)
           (page_response [VStr "x"] VNull) ∅ stub_client eq_refl).
  - by right.
  - intros [H|H]; discriminate H.
Defined.

(** After the second inventory page the next call returns null. *)
Lemma last_assets_example :
  ∃ query',
    (_steamResult (P := stub_packages)
       (Resolved (inventory_response inventory_page_2)) (Some ∅) stub_client).1.2
      = Some query' ∧
    ∀ profileid appId c2,
      steam_inventory_get (P := stub_packages) profileid appId query' c2
        = (ReturnsNull, c2).
Proof.
  apply (last_assets_close_cursor (P := stub_packages)
           (inventory_response inventory_page_2) ∅ stub_client eq_refl).
  - by left.
  - intros [_ [H|H]]; discriminate H.
Defined.


(** An inventory of two pages: three calls, two requests. *)
Lemma inventory_example :
  let r := steam_calls (P := inventory_packages) [0; 500; 500]
             "76561198000000000" "730" ∅ stub_client in
  r.1.1 = [Resolved inventory_page_1; Resolved inventory_page_2; Resolved VNull] ∧
  sent_urls r.2
    = [VStr "http://steamcommunity.com/inventory/76561198000000000/730/2";
       VStr "http://steamcommunity.com/inventory/76561198000000000/730/2?start_assetid=99"] ∧
  r.1.2 !! "start_assetid" = Some VNull.
Proof.
  assert (prop (∅ : gmap string value) "start_assetid" ≠ VNull) as Hq
    by (vm_compute; discriminate).
  assert (inventory_linked [inventory_page_1; inventory_page_2]) as Hlinked.
  { simpl. repeat split; try discriminate.
    - intros [_ [H|H]]; discriminate H.
    - intros [_ [H|H]]; discriminate H.
    - by left. }
  assert (inventory_serves (P := inventory_packages) "76561198000000000" "730"
            ∅ [inventory_page_1; inventory_page_2]) as Hserves.
  { simpl. repeat split; intros r Hm Hu; unfold inventory_transport;
      rewrite Hu; vm_compute; reflexivity. }
  pose proof (inventory_traversal (P := inventory_packages)
                "76561198000000000" "730" ∅ stub_client
                [inventory_page_1; inventory_page_2] [0; 500; 500]
                Hq eq_refl eq_refl Hlinked Hserves) as H.
  vm_compute in H. vm_compute. exact H.
Defined.


(** [bulk_mine_get()] against a page of bulks. *)
Lemma bulk_mine_get_default_example :
  let P := answering (page_response [VStr "bulk-1"] VNull) in
  (bulk_mine_get_default (P := P) (λ _, "") stub_client).1
    = TypeError "Cannot create property 'nextPage' on string 'listed'".
Proof.
  apply (proj2 (bulk_mine_get_default_never_pages
                  (P := answering (page_response [VStr "bulk-1"] VNull))
                  (λ _, "") stub_client)
           _ (page_response [VStr "bulk-1"] VNull) (stub_totp_ok 0)
           (λ _, eq_refl) eq_refl).
  intros [_ [H|H]]; discriminate H.
Defined.

(** Bunyan's table of levels: level 30 is INFO, level 35 has no name. *)
Lemma log_names_example :
  let names : gmap string string :=
    {[ "10" := "trace"; "20" := "debug"; "30" := "info";
       "40" := "warn"; "50" := "error"; "60" := "fatal" ]} in
  LOG_NAME_FROM_LEVEL stub_toUpperCase names !! "30" = Some "INFO" ∧
  LOG_NAME_FROM_LEVEL stub_toUpperCase names !! "35" = None.
Proof.
  cbv zeta. rewrite !LOG_NAME_FROM_LEVEL_lookup by reflexivity.
  split; vm_compute; reflexivity.
Defined.

(** {status:"FAIL", error:"trade hold"} under HTTP 422: the message of
    the error is lost. *)
Lemma plain_error_example :
  (_result (P := stub_packages)
     (Resolved {| data := VObj [("status", VStr "FAIL");
                                ("error", VStr "trade hold")];
                  response_of := {| statusCode := VNum 422;
                                    statusMessage := VStr "Unprocessable Entity" |} |})
     None stub_client).1.1
  = Rejected (HttpErrors (VNum 422) (VStr "Unprocessable Entity")).
Proof.
  apply (plain_error_is_ignored (P := stub_packages)
           {| data := VObj [("status", VStr "FAIL");
                            ("error", VStr "trade hold")];
              response_of := {| statusCode := VNum 422;
                                statusMessage := VStr "Unprocessable Entity" |} |}
           None stub_client eq_refl eq_refl eq_refl eq_refl).
  intros fields H. discriminate H.
Defined.
